(** * py5: image cache, JSON loading and notebook sketch capture

    A shallow embedding of three pieces of the py5 module:
    - [py5/mixins/image.py]: the weak-reference image cache of [ImageMixin];
    - [py5/mixins/data.py]: [DataMixin.load_json];
    - [py5_tools/magics/drawing.py]: [_run_sketch] and the four cell magics.

    Python objects are identified by natural numbers, exceptions are values
    of [exn], and a method that mutates [self] or the outside world is a
    function from a state to an outcome and a new state. *)

From Stdlib Require Import Ascii.
From stdpp Require Import base option list gmap strings pretty.


(** ** Exceptions and the state-and-exception monad *)

Inductive exn :=
| IndexError
| TypeError
| ValueError
| KeyError (key : string)
| RuntimeError (msg : string)
| UnicodeDecodeError
| IsADirectoryError
| FileNotFoundError
| SyntaxError
| Foreign (tag : nat).   (* raised inside an external collaborator *)

Inductive result (A : Type) :=
| Ok (a : A)
| Raise (e : exn).
Arguments Ok {A} a.
Arguments Raise {A} e.

#[global] Instance exn_eq_dec : EqDecision exn.
Proof. solve_decision. Defined.

Definition M (S A : Type) : Type := S → result A * S.

Definition ret {S A} (a : A) : M S A := λ s, (Ok a, s).
Definition raise {S A} (e : exn) : M S A := λ s, (Raise e, s).
Definition bind {S A B} (m : M S A) (k : A → M S B) : M S B :=
  λ s, match m s with
       | (Ok a, s') => k a s'
       | (Raise e, s') => (Raise e, s')
       end.
Definition get {S} : M S S := λ s, (Ok s, s).
Definition modify {S} (f : S → S) : M S unit := λ s, (Ok tt, f s).
Definition lift {S A} (r : result A) : M S A := λ s, (r, s).

Notation "'let*' x := m 'in' k" := (bind m (λ x, k))
  (at level 10, x name, m at level 100, k at level 200, only parsing).

(** Sequencing of computations that only succeed or raise. *)
Definition try {A B} (r : result A) (k : A → result B) : result B :=
  match r with
  | Ok a => k a
  | Raise e => Raise e
  end.

Notation "'let?' x := r 'in' k" := (try r (λ x, k))
  (at level 10, x name, r at level 100, k at level 200, only parsing).

(** Python's [list.remove(x)]: drop the first item equal to [x]; [None]
    stands for the [ValueError] raised when no item is equal. *)
Fixpoint list_remove {A} `{EqDecision A} (x : A) (l : list A) : option (list A) :=
  match l with
  | [] => None
  | y :: l' => if decide (x = y) then Some l' else (y ::.) <$> list_remove x l'
  end.

(** ** The image mixin ([py5/mixins/image.py]) *)

Module ImageMixin.

(** A Python value as the cache sees it.  Identity ([is]) is equality of
    these terms. *)
Inductive pyobj :=
| PyNone
| PyPlain (id : nat)   (* an object whose type has no weak-reference support *)
| PyWeak (id : nat).   (* an object that can be weakly referenced *)

#[global] Instance pyobj_eq_dec : EqDecision pyobj.
Proof. solve_decision. Defined.

(** The [image] argument: a tuple of values, or any other single value. *)
Inductive image_arg :=
| Single (o : pyobj)
| Tuple (items : list pyobj).

#[global] Instance image_arg_eq_dec : EqDecision image_arg.
Proof. solve_decision. Defined.

(** A [weakref.ref] without callback is shared by all references to one
    referent, so a reference is named by its referent.  A native image (the
    converter's result, never [None]) is named by its identity, and [==] on
    native images is identity. *)
Abbreviation ref := nat (only parsing).
Abbreviation pimage := nat (only parsing).
Abbreviation entry := (ref * pimage)%type (only parsing).

(** The mixin's state together with the part of the interpreter it observes:
    the objects already reclaimed and the converter invocations so far. *)
Record state := State {
  _weak_image_refs : list entry;
  collected : gset nat;
  converter_calls : list image_arg;
}.

Definition set_refs (l : list entry) (s : state) : state :=
  State l (collected s) (converter_calls s).

(** [ref()]: the referent, or [None] once it has been reclaimed. *)
Definition deref (gone : gset nat) (r : ref) : pyobj :=
  if decide (r ∈ gone) then PyNone else PyWeak r.

Definition expired (gone : gset nat) (e : entry) : Prop := e.1 ∈ gone.
Definition live (gone : gset nat) (e : entry) : Prop := e.1 ∉ gone.
Definition matches (gone : gset nat) (image : pyobj) (e : entry) : Prop :=
  image = deref gone e.1.

#[global] Instance expired_dec gone e : Decision (expired gone e).
Proof. unfold expired. apply _. Defined.
#[global] Instance live_dec gone e : Decision (live gone e).
Proof. unfold live. apply _. Defined.
#[global] Instance matches_dec gone image e : Decision (matches gone image e).
Proof. unfold matches. apply _. Defined.

(** [if isinstance(image, tuple): image = image[0]] *)
Definition first_of (image : image_arg) : result pyobj :=
  match image with
  | Single o => Ok o
  | Tuple [] => Raise IndexError
  | Tuple (o :: _) => Ok o
  end.

(** The loop of [_check_cache] over [reversed(self._weak_image_refs)].  The
    reverse iterator holds an index into the list it walks, so removals
    during the walk are seen by it; [n] is that index plus one, and the walk
    ends when the index is negative or no longer inside the list. *)
Fixpoint scan (gone : gset nat) (image : pyobj) (n : nat) (refs : list entry)
  : result (option pimage) * list entry :=
  match n with
  | 0 => (Ok None, refs)
  | S i =>
    match refs !! i with
    | None => (Ok None, refs)
    | Some (r, p) =>
      let removed :=
        if decide (deref gone r = PyNone) then list_remove (r, p) refs
        else Some refs in
      match removed with
      | None => (Raise ValueError, refs)
      | Some refs' =>
        if decide (image = deref gone r) then (Ok (Some p), refs')
        else scan gone image i refs'
      end
    end
  end.

(** The whole loop: the iterator starts at the last index. *)
Definition scan_all (gone : gset nat) (image : pyobj) (refs : list entry)
  : result (option pimage) * list entry :=
  scan gone image (length refs) refs.

Definition _check_cache (image : image_arg) : M state (option pimage) :=
  let* key := lift (first_of image) in
  let* s := get in
  let '(r, refs') := scan_all (collected s) key (_weak_image_refs s) in
  let* _ := modify (set_refs refs') in
  lift r.

(** [weakref.ref(image)] *)
Definition weakref_ref (o : pyobj) : result ref :=
  match o with
  | PyWeak id => Ok id
  | _ => Raise TypeError
  end.

Definition _store_cache (image : image_arg) (p : pimage) : M state unit :=
  let* key := lift (first_of image) in
  let* r := lift (weakref_ref key) in
  let* s := get in
  modify (set_refs (_weak_image_refs s ++ [(r, p)])).

Definition flush_image_cache : M state unit :=
  modify (set_refs []).

Section Converter.

(** [Converter.to_pimage] is an external collaborator: it yields a native
    image or raises, and what it yields may depend on the calls made before. *)
Variable to_pimage : list image_arg → image_arg → result pimage.

Definition convert (image : image_arg) : M state pimage :=
  let* s := get in
  let* _ := modify (λ s, State (_weak_image_refs s) (collected s)
                          (converter_calls s ++ [image])) in
  lift (to_pimage (converter_calls s) image).

Definition _check_cache_or_convert (image : image_arg) (cache : bool)
  : M state pimage :=
  let* found := (if cache then _check_cache image else ret None) in
  let cache_hit := cache && bool_decide (is_Some found) in
  let* pimage := match found with
            | Some p => ret p
            | None => convert image
            end in
  let* _ := (if cache && negb cache_hit then _store_cache image pimage else ret tt) in
  ret pimage.

(** The outcomes of a cached request, one constructor for each way
    through [_check_cache_or_convert] with [cache=True]. *)
Inductive resolved (image : image_arg) (s : state)
  : result pimage * state → Prop :=
| resolved_bad_key e :
    first_of image = Raise e →
    resolved image s (Raise e, s)
| resolved_hit key p l' :
    first_of image = Ok key →
    scan_all (collected s) key (_weak_image_refs s) = (Ok (Some p), l') →
    resolved image s (Ok p, set_refs l' s)
| resolved_unconverted key l' e :
    first_of image = Ok key →
    scan_all (collected s) key (_weak_image_refs s) = (Ok None, l') →
    to_pimage (converter_calls s) image = Raise e →
    resolved image s
      (Raise e, State l' (collected s) (converter_calls s ++ [image]))
| resolved_unstored key l' p e :
    first_of image = Ok key →
    scan_all (collected s) key (_weak_image_refs s) = (Ok None, l') →
    to_pimage (converter_calls s) image = Ok p →
    weakref_ref key = Raise e →
    resolved image s
      (Raise e, State l' (collected s) (converter_calls s ++ [image]))
| resolved_stored x l' p :
    first_of image = Ok (PyWeak x) →
    scan_all (collected s) (PyWeak x) (_weak_image_refs s) = (Ok None, l') →
    to_pimage (converter_calls s) image = Ok p →
    resolved image s
      (Ok p, State (l' ++ [(x, p)]) (collected s) (converter_calls s ++ [image])).

(** What can happen to a sketch between two observations: a conversion
    request, the reclamation of an object, or a flush of the cache. *)
Inductive op :=
| Resolve (image : image_arg) (cache : bool)
| Collect (id : nat)
| Flush.

Definition step (o : op) (s : state) : state :=
  match o with
  | Resolve image cache => (_check_cache_or_convert image cache s).2
  | Collect id => State (_weak_image_refs s) ({[id]} ∪ collected s)
                        (converter_calls s)
  | Flush => (flush_image_cache s).2
  end.

Definition run (ops : list op) (s : state) : state :=
  foldl (λ s o, step o s) s ops.

Definition is_flush (o : op) : Prop := o = Flush.

End Converter.

Definition initial (gone : gset nat) : state := State [] gone [].

(** *** Vocabulary for the statements below *)

(** The most recently appended entry of the object [x]. *)
Definition newest (x : nat) (refs : list entry) : option entry :=
  last (filter (λ e, e.1 = x) refs).

(** An object that a caller passes is referenced by that caller, so it has
    not been reclaimed. *)
Definition alive (gone : gset nat) (o : pyobj) : Prop :=
  match o with
  | PyWeak x => x ∉ gone
  | _ => True
  end.

(** No two live entries refer to the same object. *)
Definition at_most_one_live (s : state) : Prop :=
  NoDup (filter (live (collected s)) (_weak_image_refs s)).*1.

(** *** The drawing methods

    [image] and [texture] hand the native image to the applet.  The sketch
    is the mixin's state together with the calls the applet has received;
    the applet itself is external and may raise. *)

Inductive applet_call :=
| AppletImage (p : pimage) (rest : list image_arg)
| AppletTexture (p : pimage).

Record sketch := Sketch {
  mixin : state;
  applet_calls : list applet_call;
}.

Section Applet.
Variable to_pimage : list image_arg → image_arg → result pimage.
Variable py5applet_image : pimage → list image_arg → result unit.
Variable py5applet_texture : pimage → result unit.

(** A method of the mixin, run on the sketch. *)
Definition on_mixin {A} (m : M state A) : M sketch A :=
  λ k, let '(r, s) := m (mixin k) in (r, Sketch s (applet_calls k)).

Definition call_applet (c : applet_call) (r : result unit) : M sketch unit :=
  λ k, (r, Sketch (mixin k) (applet_calls k ++ [c])).

(** [image(self, *args, cache=False)]: [args[0]] is the picture, the other
    positional arguments go to the applet as they are. *)
Definition image (args : list image_arg) (cache : bool) : M sketch unit :=
  match args with
  | [] => raise IndexError
  | img :: rest =>
      let* pimage := on_mixin (_check_cache_or_convert to_pimage img cache) in
      call_applet (AppletImage pimage rest) (py5applet_image pimage rest)
  end.

Definition texture (img : image_arg) (cache : bool) : M sketch unit :=
  let* pimage := on_mixin (_check_cache_or_convert to_pimage img cache) in
  call_applet (AppletTexture pimage) (py5applet_texture pimage).

(** One [image] call for each list of trailing arguments, as a draw
    callback does frame after frame. *)
Definition frames (img : image_arg) (rests : list (list image_arg))
    (k : sketch) : sketch :=
  foldl (λ k rest, (image (img :: rest) true k).2) k rests.

End Applet.

(** A converter for the examples: every call succeeds and yields a new
    image, numbered from 100 by the calls made before. *)
Definition numbering_converter : list image_arg → image_arg → result pimage :=
  λ calls _, Ok (100 + length calls).

End ImageMixin.

(** ** The data mixin ([py5/mixins/data.py]) *)

Module DataMixin.

(** An HTTP response as [requests] hands it over. *)
Record response := Response {
  status_code : Z;
  reason : string;
  body : string;
}.

(** [re.match(r'https?://', s)]: the pattern is anchored at the start of
    [s] and says nothing about what follows. *)
Definition re_match_http (s : string) : bool :=
  String.prefix "http://" s || String.prefix "https://" s.

Section Collaborators.

(** [pathlib]: paths, their construction from text, their text, whether
    they are absolute, and the [/] operator. *)
Variable path : Type.
Variable Path : string → path.
Variable str : path → string.
Variable is_absolute : path → bool.
Variable truediv : path → path → path.

(** The file system as [load_json] sees it: whether a path exists, and
    what opening and reading it yields. *)
Record filesystem := Filesystem {
  path_exists : path → bool;
  read_text : path → result string;
}.

(** [json], [requests] and the sketch. *)
Variable json : Type.
Variable kwargs : Type.
Variable json_load : string → kwargs → result json.
Variable requests_get : string → result response.
Variable response_json : response → result json.
Variable sketch_path : path.

(** [filename: Union[str, Path]] *)
Inductive source :=
| Str (s : string)
| PathObj (p : path).

Definition to_path (filename : source) : path :=
  match filename with
  | Str s => Path s
  | PathObj p => p
  end.

Definition to_str (filename : source) : string :=
  match filename with
  | Str s => s
  | PathObj p => str p
  end.

(** [isinstance(filename, str) and re.match(r'https?://', filename)] *)
Definition is_url (filename : source) : bool :=
  match filename with
  | Str s => re_match_http s
  | PathObj _ => false
  end.

Definition load_json (fs : filesystem) (filename : source) (kw : kwargs)
  : result json :=
  if is_url filename then
    let? response := requests_get (to_str filename) in
    if decide (status_code response = 200%Z) then response_json response
    else Raise (RuntimeError ("Unable to download JSON URL: " +:+ reason response))
  else
    let path := to_path filename in
    let path :=
      if negb (is_absolute path) then
        let cwd := sketch_path in
        if path_exists fs (truediv (truediv cwd (Path "data")) (to_path filename))
        then truediv (truediv cwd (Path "data")) (to_path filename)
        else truediv cwd (to_path filename)
      else path in
    if path_exists fs path then
      let? text := read_text fs path in
      json_load text kw
    else Raise (RuntimeError ("Unable to find JSON file " +:+ to_str filename)).

(** Writing.  Paths are taken to name files one to one: a write at one
    path is seen at that path and at no other.  [open(path, 'w')] may fail
    (a missing directory, a refused permission); [json.dump] writes text to
    the open file and may raise after part of it is written. *)
Context `{EqDecision path}.
Variable open_w : filesystem → path → result unit.
Variable json_dump : json → kwargs → string * option exn.

Definition write_text (fs : filesystem) (p : path) (text : string) : filesystem :=
  Filesystem
    (λ q, if decide (q = p) then true else path_exists fs q)
    (λ q, if decide (q = p) then Ok text else read_text fs q).

Definition save_json (fs : filesystem) (json_data : json) (filename : source)
    (kw : kwargs) : result unit * filesystem :=
  let path := to_path filename in
  let path :=
    if negb (is_absolute path) then
      let cwd := sketch_path in
      truediv cwd (to_path filename)
    else path in
  match open_w fs path with
  | Raise e => (Raise e, fs)
  | Ok _ =>
      let '(text, failure) := json_dump json_data kw in
      (match failure with
       | None => Ok tt
       | Some e => Raise e
       end,
       write_text fs path text)
  end.

(** [parse_json(cls, serialized_json, **kwargs)] *)
Definition parse_json (serialized_json : string) (kw : kwargs) : result json :=
  json_load serialized_json kw.

End Collaborators.

(** Collaborators for the examples: POSIX-like paths kept as text, a
    parser that accepts any text, and a server that knows no document. *)
Definition sample_is_absolute (p : string) : bool := String.prefix "/" p.
Definition sample_truediv (p q : string) : string :=
  if sample_is_absolute q then q else p +:+ "/" +:+ q.
Definition sample_json_load (text : string) (kw : unit) : result string := Ok text.
Definition sample_requests_get (url : string) : result response :=
  Ok (Response 404 "Not Found" "").
Definition sample_response_json (r : response) : result string := Ok (body r).
Definition sample_fs : filesystem string :=
  Filesystem string
    (λ p, bool_decide (p = "/sketch/data/points.json"))
    (λ p, if decide (p = "/sketch/data/points.json") then Ok "[1, 2]"
          else Raise FileNotFoundError).

Definition sample_open_w (fs : filesystem string) (p : string) : result unit :=
  Ok tt.
Definition sample_json_dump (v : string) (kw : unit) : string * option exn :=
  (v, None).

End DataMixin.

(** ** The drawing magics ([py5_tools/magics/drawing.py]) *)

Module Drawing.

Definition nl : string := String "010"%char EmptyString.
Definition dq : string := String "034"%char EmptyString.
Definition bs : string := String "092"%char EmptyString.
Definition triple_quote : string := dq +:+ dq +:+ dq.

(** The module's templates, as the functions that [str.format] makes of
    them; [{n}] is the argument [an]. *)
Definition _CODE_FRAMEWORK (a0 a1 a2 : string) : string :=
  nl +:+ "import py5" +:+ nl +:+ nl +:+ a2 +:+ nl +:+ nl
  +:+ "with open('" +:+ a0 +:+ "', 'r') as f:" +:+ nl
  +:+ "    eval(compile(f.read(), '" +:+ a0 +:+ "', 'exec'))" +:+ nl +:+ nl
  +:+ "py5.run_sketch(block=True)" +:+ nl
  +:+ "if " +:+ a1 +:+ " and py5.is_dead_from_error:" +:+ nl
  +:+ "    py5.exit_sketch()" +:+ nl.

Definition _STANDARD_CODE_TEMPLATE (a0 a1 a2 a3 a4 : string) : string :=
  nl +:+ "def settings():" +:+ nl
  +:+ "    py5.size(" +:+ a0 +:+ ", " +:+ a1 +:+ ", py5." +:+ a2 +:+ ")" +:+ nl
  +:+ nl +:+ nl +:+ "def setup():" +:+ nl +:+ a4 +:+ nl +:+ nl
  +:+ "    py5.save_frame(" +:+ dq +:+ a3 +:+ dq +:+ ", use_thread=False)" +:+ nl
  +:+ "    py5.exit_sketch()" +:+ nl.

Definition _SAVE_OUTPUT_CODE_TEMPLATE (a0 a1 a2 a3 a4 : string) : string :=
  nl +:+ "def settings():" +:+ nl
  +:+ "    py5.size(" +:+ a0 +:+ ", " +:+ a1 +:+ ", py5." +:+ a2 +:+ ", "
  +:+ dq +:+ a3 +:+ dq +:+ ")" +:+ nl
  +:+ nl +:+ nl +:+ "def setup():" +:+ nl +:+ a4 +:+ nl +:+ nl
  +:+ "    py5.exit_sketch()" +:+ nl.

Definition _DXF_CODE_TEMPLATE (a0 a1 a2 a3 a4 : string) : string :=
  nl +:+ "def settings():" +:+ nl
  +:+ "    py5.size(" +:+ a0 +:+ ", " +:+ a1 +:+ ", py5.P3D)" +:+ nl
  +:+ nl +:+ nl +:+ "def setup():" +:+ nl
  +:+ "    py5.begin_raw(py5.DXF, " +:+ dq +:+ a3 +:+ dq +:+ ")" +:+ nl +:+ nl
  +:+ a4 +:+ nl +:+ nl
  +:+ "    py5.end_raw()" +:+ nl
  +:+ "    py5.exit_sketch()" +:+ nl.

(** [code.replace(three quotes, three escaped quotes)] *)
Fixpoint escape_triple_quotes (code : string) : string :=
  match code with
  | String a rest =>
    match rest with
    | String b (String c rest') =>
      if decide (a = "034"%char ∧ b = "034"%char ∧ c = "034"%char)
      then bs +:+ dq +:+ bs +:+ dq +:+ bs +:+ dq +:+ escape_triple_quotes rest'
      else String a (escape_triple_quotes rest)
    | _ => String a (escape_triple_quotes rest)
    end
  | EmptyString => EmptyString
  end.

(** A value bound in the notebook namespace. *)
Inductive value :=
| Namespace             (* the namespace dictionary itself *)
| PilImage (img : string)
| Other (n : nat).

Inductive node :=
| File (data : string)
| Dir.

(** The part of the process that the magics read and write. *)
Record world := World {
  is_running : bool;                (* [py5.is_running] *)
  stdout : list string;             (* the lines printed *)
  user_ns : gmap string value;      (* [shell.user_ns] *)
  files : gmap string node;         (* the file system *)
  executed : list string;           (* the scripts handed to [exec] *)
  displayed : list string;          (* what [display] has shown *)
}.

Definition set_stdout x (w : world) : world :=
  World (is_running w) x (user_ns w) (files w) (executed w) (displayed w).
Definition set_user_ns x (w : world) : world :=
  World (is_running w) (stdout w) x (files w) (executed w) (displayed w).
Definition set_files x (w : world) : world :=
  World (is_running w) (stdout w) (user_ns w) x (executed w) (displayed w).
Definition set_executed x (w : world) : world :=
  World (is_running w) (stdout w) (user_ns w) (files w) x (displayed w).
Definition set_displayed x (w : world) : world :=
  World (is_running w) (stdout w) (user_ns w) (files w) (executed w) x.

Definition print (line : string) : M world unit :=
  modify (λ w, set_stdout (stdout w ++ [line]) w).

Definition display (x : string) : M world unit :=
  modify (λ w, set_displayed (displayed w ++ [x]) w).

(** [with open(temp_py, 'w') as f: f.write(code)]: the generated script is
    written into the directory that [tempfile] has just created, which is
    new, so that no node of that name is in the way.  The files that the
    user names are written with [open_write] below. *)
Definition write_file (name data : string) : M world unit :=
  modify (λ w, set_files (<[name := File data]> (files w)) w).

(** [del user_ns[key]] *)
Definition del_user_ns (key : string) : M world unit :=
  λ w, match user_ns w !! key with
       | Some _ => (Ok tt, set_user_ns (delete key (user_ns w)) w)
       | None => (Raise (KeyError key), w)
       end.

(** Whether [name] is the directory [dir] or lies below it. *)
Definition inside (dir name : string) : Prop :=
  name = dir ∨ String.prefix (dir +:+ "/") name = true.

#[global] Instance inside_dec dir name : Decision (inside dir name).
Proof. unfold inside. apply _. Defined.

(** What leaving a [tempfile.TemporaryDirectory] block does to the files. *)
Definition rmtree (dir : string) (fs : gmap string node) : gmap string node :=
  filter (λ kv, ¬ inside dir kv.1) fs.

Inductive read_mode := Text | Binary.

(** Truth value of a result that is [None], text or bytes. *)
Definition truthy (x : option string) : bool :=
  match x with
  | Some s => negb (bool_decide (s = EmptyString))
  | None => false
  end.

Record args := Args {
  width : Z;
  height : Z;
  filename : option string;
  renderer : string;
  variable : option string;
  unsafe : bool;
}.

Section Collaborators.

(** The interpreter running a script in the notebook namespace: it may
    print, change the namespace and the files, and raise. *)
Variable exec_code : string → world → result unit * world.
(** [tempfile]: the name chosen for a new directory. *)
Variable mkdtemp : gmap string node → string.
(** Decoding of a file opened in text mode. *)
Variable decode : string → result string.
(** [textwrap.indent] and [util.fix_triple_quote_str]. *)
Variable textwrap_indent : string → string → string.
Variable fix_triple_quote_str : string → string.
(** [pathlib]: the text of [Path(text)], which is [text] normalised; the
    parent of a path; and [mkdir(parents=True)], which may raise and may
    have made some of the directories by then. *)
Variable Path : string → string.
Variable parent : string → string.
Variable mkdir_parents
  : string → gmap string node → result unit * gmap string node.
(** The reasons the system may have to refuse [open(name, 'w')], other than
    [name] being a directory. *)
Variable open_refused : gmap string node → string → option exn.
(** [re.match] and PIL.  [Image.save] picks the format from the name, raises
    for a name it cannot serve, and otherwise writes the file itself. *)
Variable re_match : string → string → bool.
Variable pil_open_rgb : string → result string.
Variable pil_save
  : string → string → gmap string node → result unit * gmap string node.

Definition exec (script : string) : M world unit :=
  λ w, let '(r, w') := exec_code script w in
       (r, set_executed (executed w ++ [script]) w').

(** [with tempfile.TemporaryDirectory() as tempdir: body]: the directory
    and everything below it are removed when the block is left, whether
    [body] returns or raises. *)
Definition with_TemporaryDirectory {A} (body : string → M world A) : M world A :=
  λ w, let tempdir := mkdtemp (files w) in
       let '(r, w') := body tempdir (set_files (<[tempdir := Dir]> (files w)) w) in
       (r, set_files (rmtree tempdir (files w')) w').

(** [with open(name, mode) as f: result = f.read()] *)
Definition read_file (name : string) (mode : read_mode) : M world string :=
  let* w := get in
  match files w !! name with
  | Some (File data) =>
      match mode with
      | Binary => ret data
      | Text => lift (decode data)
      end
  | Some Dir => raise IsADirectoryError
  | None => raise FileNotFoundError
  end.

Definition already_running : string :=
  "You must exit the currently running sketch before running another sketch.".

Definition _run_sketch (renderer code : string) (width height : Z)
    (safe_exec : bool) : M world (option string) :=
  let '(template, suffix, mode) :=
    if decide (renderer = "SVG") then (_SAVE_OUTPUT_CODE_TEMPLATE, ".svg", Text)
    else if decide (renderer = "PDF") then (_SAVE_OUTPUT_CODE_TEMPLATE, ".pdf", Binary)
    else if decide (renderer = "DXF") then (_DXF_CODE_TEMPLATE, ".dxf", Text)
    else (_STANDARD_CODE_TEMPLATE, ".png", Binary) in
  let* w := get in
  if is_running w then
    let* _ := print already_running in
    ret None
  else
    let* prepared_code :=
      (if safe_exec then
         ret (fix_triple_quote_str (textwrap_indent code "    "))
       else
         let* _ := modify (λ w, set_user_ns (<["_py5_user_ns" := Namespace]> (user_ns w)) w) in
         ret ("    exec(" +:+ triple_quote +:+ escape_triple_quotes code
              +:+ triple_quote +:+ ", _py5_user_ns)")) in
    let* result :=
      with_TemporaryDirectory (λ tempdir,
        let temp_py := tempdir +:+ "/py5_code.py" in
        let temp_out := tempdir +:+ "/output" +:+ suffix in
        let* _ := write_file temp_py
                (template (pretty width) (pretty height) renderer temp_out
                          prepared_code) in
        let* _ := exec (_CODE_FRAMEWORK temp_py "True" "") in
        let* w := get in
        if bool_decide (is_Some (files w !! temp_out)) then
          let* data := read_file temp_out mode in
          ret (Some data)
        else ret None) in
    let* _ := (if negb safe_exec then del_user_ns "_py5_user_ns" else ret tt) in
    ret result.

(** *** Vocabulary for the statements about [_run_sketch] *)

(** The output suffix and the mode in which the output is read back. *)
Definition suffix_of (renderer : string) : string :=
  if decide (renderer = "SVG") then ".svg"
  else if decide (renderer = "PDF") then ".pdf"
  else if decide (renderer = "DXF") then ".dxf"
  else ".png".

Definition mode_of (renderer : string) : read_mode :=
  if decide (renderer = "SVG") then Text
  else if decide (renderer = "PDF") then Binary
  else if decide (renderer = "DXF") then Text
  else Binary.

Definition template_of (renderer : string)
  : string → string → string → string → string → string :=
  if decide (renderer = "SVG") then _SAVE_OUTPUT_CODE_TEMPLATE
  else if decide (renderer = "PDF") then _SAVE_OUTPUT_CODE_TEMPLATE
  else if decide (renderer = "DXF") then _DXF_CODE_TEMPLATE
  else _STANDARD_CODE_TEMPLATE.

Definition temp_py (tempdir : string) : string := tempdir +:+ "/py5_code.py".
Definition temp_out (tempdir renderer : string) : string :=
  tempdir +:+ "/output" +:+ suffix_of renderer.

(** The body of the generated [setup]. *)
Definition prepared (code : string) (safe_exec : bool) : string :=
  if safe_exec then fix_triple_quote_str (textwrap_indent code "    ")
  else "    exec(" +:+ triple_quote +:+ escape_triple_quotes code
       +:+ triple_quote +:+ ", _py5_user_ns)".

(** The script that [exec] receives. *)
Definition framework (tempdir : string) : string :=
  _CODE_FRAMEWORK (temp_py tempdir) "True" "".

(** The world in which that script starts: the binding (unsafe mode), the
    new directory, and the generated code in it. *)
Definition staged (renderer code : string) (width height : Z)
    (safe_exec : bool) (w : world) : world :=
  let tempdir := mkdtemp (files w) in
  let w0 := if safe_exec then w
            else set_user_ns (<["_py5_user_ns" := Namespace]> (user_ns w)) w in
  set_files
    (<[temp_py tempdir :=
         File (template_of renderer (pretty width) (pretty height) renderer
                 (temp_out tempdir renderer) (prepared code safe_exec))]>
       (<[tempdir := Dir]> (files w)))
    w0.

(** The world that [_run_sketch] leaves in safe mode. *)
Definition left_behind renderer code width height (w : world) : world :=
  let tempdir := mkdtemp (files w) in
  let ran := exec_code (framework tempdir)
               (staged renderer code width height true w) in
  set_files (rmtree tempdir (files ran.2))
    (set_executed (executed w ++ [framework tempdir]) ran.2).

(** What is read back once the script has returned. *)
Definition read_back (renderer : string) (tempdir : string) (w : world)
  : result (option string) :=
  match files w !! temp_out tempdir renderer with
  | None => Ok None
  | Some Dir => Raise IsADirectoryError
  | Some (File data) =>
      match mode_of renderer with
      | Binary => Ok (Some data)
      | Text => let? text := decode data in Ok (Some text)
      end
  end.

(** [path.mkdir(parents=True)] *)
Definition mkdir (dir : string) : M world unit :=
  λ w, let '(r, fs) := mkdir_parents dir (files w) in (r, set_files fs w).

(** [with open(filename, 'w') as f: f.write(data)] (or ['wb']) on the path
    that the user has named: a directory cannot be opened for writing. *)
Definition open_write (name data : string) : M world unit :=
  λ w, match files w !! name with
       | Some Dir => (Raise IsADirectoryError, w)
       | _ =>
           match open_refused (files w) name with
           | Some e => (Raise e, w)
           | None => (Ok tt, set_files (<[name := File data]> (files w)) w)
           end
       end.

(** [pil_img.save(filename)] *)
Definition save_image (pil_img name : string) : M world unit :=
  λ w, let '(r, fs) := pil_save pil_img name (files w) in (r, set_files fs w).

(** [DrawingMagics._filename_check]; [Path(None)] raises [TypeError].  The
    path that is returned, and later printed, is the normalised one. *)
Definition _filename_check (filename : option string) : M world string :=
  match filename with
  | None => raise TypeError
  | Some text =>
      let filename := Path text in
      let* w := get in
      let* _ := (if bool_decide (is_Some (files w !! parent filename)) then ret tt
                 else mkdir (parent filename)) in
      ret filename
  end.

(** The files once [_filename_check] has looked after the directory of
    [target]: as they are when that directory exists, otherwise what
    [mkdir] makes of them. *)
Definition with_parent (target : string) (fs : gmap string node)
  : result unit * gmap string node :=
  if bool_decide (is_Some (fs !! parent target)) then (Ok tt, fs)
  else mkdir_parents (parent target) fs.

(** [DrawingMagics._variable_name_check]; [chr(36)] is the dollar sign. *)
Definition _variable_name_check (varname : string) : bool :=
  re_match ("^[a-zA-Z_]\w*" +:+ "$") varname.

(** The cell magics, after [parse_argstring] has produced [a] from the
    line. *)
Definition py5drawpdf (a : args) (cell : string) : M world unit :=
  let* pdf := _run_sketch "PDF" cell (width a) (height a) (negb (unsafe a)) in
  if truthy pdf then
    let* name := _filename_check (filename a) in
    let* _ := open_write name (default EmptyString pdf) in
    print ("PDF written to " +:+ name)
  else ret tt.

Definition py5drawdxf (a : args) (cell : string) : M world unit :=
  let* dxf := _run_sketch "DXF" cell (width a) (height a) (negb (unsafe a)) in
  if truthy dxf then
    let* name := _filename_check (filename a) in
    let* _ := open_write name (default EmptyString dxf) in
    print ("DXF written to " +:+ name)
  else ret tt.

Definition py5drawsvg (a : args) (cell : string) : M world unit :=
  let* svg := _run_sketch "SVG" cell (width a) (height a) (negb (unsafe a)) in
  if truthy svg then
    let* _ := (if truthy (filename a) then
                 let* name := _filename_check (filename a) in
                 let* _ := open_write name (default EmptyString svg) in
                 print ("SVG drawing written to " +:+ name)
               else ret tt) in
    display (default EmptyString svg)
  else ret tt.

Definition known_renderers : list string := ["HIDDEN"; "JAVA2D"; "P2D"; "P3D"].

Definition py5draw (a : args) (cell : string) : M world unit :=
  if decide (renderer a = "SVG") then
    print "please use %%py5drawsvg for SVG drawings."
  else if decide (renderer a = "PDF") then
    print "please use %%py5drawpdf for PDFs."
  else if decide (renderer a ∉ known_renderers) then
    print ("unknown renderer " +:+ renderer a)
  else
    let* png := _run_sketch (renderer a) cell (width a) (height a)
                            (negb (unsafe a)) in
    if truthy png then
      let* _ :=
        (if truthy (filename a) || truthy (variable a) then
           let* pil_img := lift (pil_open_rgb (default EmptyString png)) in
           let* _ := (if truthy (filename a) then
                        let* name := _filename_check (filename a) in
                        let* _ := save_image pil_img name in
                        print ("PNG file written to " +:+ name)
                      else ret tt) in
           if truthy (variable a) then
             let var := default EmptyString (variable a) in
             if _variable_name_check var then
               let* _ := modify (λ w, set_user_ns (<[var := PilImage pil_img]> (user_ns w)) w) in
               print ("PIL Image assigned to " +:+ var)
             else print ("Invalid variable name " +:+ var)
           else ret tt
         else ret tt) in
      display (default EmptyString png)
    else ret tt.

End Collaborators.

(** Collaborators for the examples: an interpreter that refuses every
    script with a [SyntaxError] and touches nothing, one that accepts every
    script and does nothing, a first temporary name, and text helpers that
    leave their argument as it is. *)
Definition refusing_exec (script : string) (w : world) : result unit * world :=
  (Raise SyntaxError, w).
Definition idle_exec (script : string) (w : world) : result unit * world :=
  (Ok tt, w).
Definition sample_mkdtemp (fs : gmap string node) : string := "/tmp/tmp0".
(** An interpreter whose script saves a picture, and one whose script saves
    an empty document. *)
Definition drawing_exec (script : string) (w : world) : result unit * world :=
  (Ok tt, set_files (<["/tmp/tmp0/output.png" := File "picture"]> (files w)) w).
Definition blank_exec (script : string) (w : world) : result unit * world :=
  (Ok tt, set_files (<["/tmp/tmp0/output.pdf" := File EmptyString]> (files w)) w).
(** A script that unbinds the name it was given. *)
Definition unbinding_exec (script : string) (w : world) : result unit * world :=
  (Ok tt, set_user_ns (delete "_py5_user_ns" (user_ns w)) w).
Definition sample_indent (text pre : string) : string := text.
(** A file system for the examples: every path lies in the directory [.],
    [mkdir] makes the directory it is asked for, [open] has no objection of
    its own, and PIL writes the picture as it is under a name that ends in
    [.png] and raises [ValueError] for any other name. *)
Definition sample_parent (name : string) : string := ".".
Definition sample_mkdir (dir : string) (fs : gmap string node)
  : result unit * gmap string node :=
  (Ok tt, <[dir := Dir]> fs).
Definition sample_open_refused (fs : gmap string node) (name : string)
  : option exn := None.
Definition sample_pil_save (img name : string) (fs : gmap string node)
  : result unit * gmap string node :=
  if String.prefix "gnp." (String.rev name)
  then (Ok tt, <[name := File img]> fs)
  else (Raise ValueError, fs).
Definition sample_world (running : bool) : world :=
  World running [] {[ "answer" := Other 42 ]} ∅ [] [].

End Drawing.
(** ** Facts about [list_remove] *)

Section ListRemove.
Context {A : Type} `{EqDecision A}.
Implicit Types (x y : A) (l : list A).

Lemma list_remove_is_Some x l : x ∈ l → is_Some (list_remove x l).
Proof.
  induction l as [|y l IH]; intros Hin; [by apply elem_of_nil in Hin|].
  simpl. case_decide; [by eexists|].
  apply elem_of_cons in Hin as [?|Hin]; [done|].
  destruct (IH Hin) as [l' ->]. by eexists.
Qed.

Lemma list_remove_length x l l' :
  list_remove x l = Some l' → length l = S (length l').
Proof.
  revert l'. induction l as [|y l IH]; intros l'; simpl; [done|].
  case_decide; [by intros [= ->]|].
  destruct (list_remove x l) as [l0|] eqn:E; simpl; [|done].
  intros [= <-]. simpl. by rewrite (IH l0).
Qed.

Lemma list_remove_app_l x l1 l2 :
  x ∈ l1 → list_remove x (l1 ++ l2) = (.++ l2) <$> list_remove x l1.
Proof.
  induction l1 as [|y l1 IH]; intros Hin; [by apply elem_of_nil in Hin|].
  simpl. case_decide; [done|].
  apply elem_of_cons in Hin as [?|Hin]; [done|].
  rewrite (IH Hin). by destruct (list_remove x l1).
Qed.

Lemma list_remove_app_r x l1 l2 :
  x ∉ l1 → list_remove x (l1 ++ l2) = (l1 ++.) <$> list_remove x l2.
Proof.
  induction l1 as [|y l1 IH]; intros Hin; simpl.
  - by destruct (list_remove x l2).
  - apply not_elem_of_cons in Hin as [? Hin]. case_decide; [done|].
    rewrite (IH Hin). by destruct (list_remove x l2).
Qed.

Lemma list_remove_snoc_Some x l l' :
  list_remove x (l ++ [x]) = Some l' → length l' = length l.
Proof.
  intros Hl'. apply list_remove_length in Hl'.
  rewrite length_app in Hl'. simpl in Hl'. lia.
Qed.

Lemma list_remove_snoc_None x l : list_remove x (l ++ [x]) ≠ None.
Proof.
  intros E. destruct (list_remove_is_Some x (l ++ [x])) as [l' Hl'].
  - apply elem_of_app. right. apply list_elem_of_singleton. done.
  - congruence.
Qed.

Lemma list_remove_filter (P : A → Prop) `{∀ a, Decision (P a)} x l l' :
  list_remove x l = Some l' → ¬ P x → filter P l' = filter P l.
Proof.
  revert l'. induction l as [|y l IH]; intros l'; simpl; [done|].
  case_decide as Hxy.
  - intros [= ->] HP. subst y. by rewrite filter_cons_False.
  - destruct (list_remove x l) as [l0|] eqn:E; simpl; [|done].
    intros [= <-] HP. rewrite !filter_cons, (IH l0); done.
Qed.

Lemma list_remove_elem_of x l l' y :
  list_remove x l = Some l' → y ∈ l' → y ∈ l.
Proof.
  revert l'. induction l as [|z l IH]; intros l'; simpl; [done|].
  case_decide.
  - intros [= ->] ?. by apply elem_of_cons; right.
  - destruct (list_remove x l) as [l0|] eqn:E; simpl; [|done].
    intros [= <-] [->|?]%elem_of_cons; apply elem_of_cons; eauto.
Qed.

Lemma list_remove_elem_of_ne x l l' y :
  list_remove x l = Some l' → y ≠ x → y ∈ l → y ∈ l'.
Proof.
  revert l'. induction l as [|z l IH]; intros l'; simpl; [done|].
  case_decide.
  - intros [= ->] ? [->|?]%elem_of_cons; [by subst|done].
  - destruct (list_remove x l) as [l0|] eqn:E; simpl; [|done].
    intros [= <-] ? [->|?]%elem_of_cons; apply elem_of_cons; eauto.
Qed.

Lemma list_remove_sublist x l l' :
  list_remove x l = Some l' → l' `sublist_of` l.
Proof.
  revert l'. induction l as [|y l IH]; intros l'; simpl; [done|].
  case_decide.
  - intros [= ->]. by apply sublist_cons.
  - destruct (list_remove x l) as [l0|] eqn:E; simpl; [|done].
    intros [= <-]. apply sublist_skip. by apply IH.
Qed.

Lemma filter_agree (P Q : A → Prop)
    `{∀ a, Decision (P a)} `{∀ a, Decision (Q a)} l :
  (∀ a, a ∈ l → P a ↔ Q a) → filter P l = filter Q l.
Proof.
  induction l as [|y l IH]; intros HPQ; [done|].
  rewrite !filter_cons, IH by (intros; apply HPQ; by right).
  destruct (decide (P y)) as [HP|HP], (decide (Q y)) as [HQ|HQ]; try done.
  - apply HPQ in HP; [done|by left].
  - apply HPQ in HQ; [done|by left].
Qed.

Lemma filter_all (P : A → Prop) `{∀ a, Decision (P a)} l :
  (∀ a, a ∈ l → P a) → filter P l = l.
Proof.
  induction l as [|y l IH]; intros HP; [done|].
  rewrite filter_cons_True by (apply HP; by left).
  by rewrite IH by (intros; apply HP; by right).
Qed.

(** A list with an item satisfying [P] splits at the last such item. *)
Lemma split_last (P : A → Prop) `{∀ a, Decision (P a)} l :
  Exists P l →
  ∃ pre m suf, l = pre ++ m :: suf ∧ P m ∧ Forall (λ a, ¬ P a) suf.
Proof.
  induction l as [|y l IH]; intros Hex; [by apply Exists_nil in Hex|].
  destruct (decide (Exists P l)) as [Hl|Hl].
  - destruct (IH Hl) as (pre & m & suf & -> & ? & ?).
    by exists (y :: pre), m, suf.
  - apply Exists_cons in Hex as [Hy|?]; [|done].
    exists [], y, l. split_and!; [done..|]. by apply not_Exists_Forall.
Qed.

End ListRemove.

(** ** Facts about the weak image cache *)

Module ImageCache.
Import ImageMixin.

(** Removing the last item of a list from that list never fails. *)
Ltac removed_last a E :=
  destruct (list_remove _ _) as [a|] eqn:E;
  [|by apply list_remove_snoc_None in E].

Section Scan.
Variable gone : gset nat.
Variable key : pyobj.

Lemma deref_live r : r ∉ gone → deref gone r = PyWeak r.
Proof. intros. unfold deref. by case_decide. Qed.

Lemma deref_expired r : r ∈ gone → deref gone r = PyNone.
Proof. intros. unfold deref. by case_decide. Qed.

Lemma deref_None r : deref gone r = PyNone ↔ r ∈ gone.
Proof. unfold deref. destruct (decide (r ∈ gone)); split; intros; done. Qed.

Lemma deref_weak r x : deref gone r = PyWeak x ↔ r = x ∧ x ∉ gone.
Proof.
  unfold deref. destruct (decide (r ∈ gone)); split.
  - done.
  - intros [-> ?]. done.
  - intros [= ->]. done.
  - intros [-> _]. done.
Qed.

(** One turn of the loop on a list whose last item is the current one. *)
Lemma scan_snoc (a : list entry) r p rest :
  scan gone key (S (length a)) (a ++ (r, p) :: rest) =
    if decide (r ∈ gone) then
      match list_remove (r, p) (a ++ [(r, p)]) with
      | Some a' =>
          if decide (key = PyNone) then (Ok (Some p), a' ++ rest)
          else scan gone key (length a) (a' ++ rest)
      | None => (Raise ValueError, a ++ (r, p) :: rest)
      end
    else if decide (key = PyWeak r) then (Ok (Some p), a ++ (r, p) :: rest)
    else scan gone key (length a) (a ++ (r, p) :: rest).
Proof.
  simpl. rewrite list_lookup_middle by done.
  destruct (decide (r ∈ gone)) as [Hg|Hg].
  - rewrite (deref_expired _ Hg). rewrite decide_True by done.
    rewrite (cons_middle _ a rest), (assoc_L (++)).
    rewrite list_remove_app_l by set_solver.
    destruct (list_remove _ _); simpl; by repeat case_decide.
  - rewrite (deref_live _ Hg). rewrite decide_False by done.
    by repeat case_decide.
Qed.

(** The loop only touches the part of the list at or below its index. *)
Lemma scan_frame n : ∀ (a rest : list entry),
  length a = n →
  scan gone key n (a ++ rest) =
    let '(res, a') := scan gone key n a in (res, a' ++ rest).
Proof.
  induction n as [|n IH]; intros a rest Hlen.
  - by destruct a.
  - destruct (decide (a = [])) as [->|Hne]; [done|].
    destruct (exists_last Hne) as (a0 & [r p] & ->).
    rewrite length_app in Hlen. simpl in Hlen.
    assert (length a0 = n) as Hn by lia. subst n.
    rewrite <-(assoc_L (++)).
    change ([(r, p)] ++ rest) with ((r, p) :: rest).
    rewrite (scan_snoc a0 r p rest), (scan_snoc a0 r p []).
    removed_last a' E; simpl.
    apply list_remove_snoc_Some in E as Hlen'.
    repeat case_decide; rewrite ?app_nil_r; try done.
    + by apply IH.
    + by rewrite <-(assoc_L (++)).
    + rewrite (IH a0 ((r, p) :: rest)), (IH a0 [(r, p)]) by done.
      destruct (scan gone key (length a0) a0) as [res a0'].
      by rewrite <-(assoc_L (++)).
Qed.

Lemma scan_all_nil : scan_all gone key [] = (Ok None, []).
Proof. done. Qed.

(** The whole loop, unfolded at the most recently appended entry. *)
Lemma scan_all_snoc (a : list entry) r p :
  scan_all gone key (a ++ [(r, p)]) =
    if decide (r ∈ gone) then
      match list_remove (r, p) (a ++ [(r, p)]) with
      | Some a' =>
          if decide (key = PyNone) then (Ok (Some p), a') else scan_all gone key a'
      | None => (Raise ValueError, a ++ [(r, p)])
      end
    else if decide (key = PyWeak r) then (Ok (Some p), a ++ [(r, p)])
    else let '(res, a') := scan_all gone key a in (res, a' ++ [(r, p)]).
Proof.
  unfold scan_all. rewrite length_app. simpl.
  replace (length a + 1) with (S (length a)) by lia.
  rewrite scan_snoc.
  removed_last a' E; simpl.
  apply list_remove_snoc_Some in E as Hlen'.
  repeat case_decide; rewrite ?app_nil_r; try done.
  - by rewrite Hlen'.
  - by apply scan_frame.
Qed.

Lemma matches_expired (e : entry) :
  e.1 ∈ gone → (matches gone key e ↔ key = PyNone).
Proof. intros Hg. unfold matches. by rewrite (deref_expired _ Hg). Qed.

Lemma matches_live (e : entry) :
  e.1 ∉ gone → (matches gone key e ↔ key = PyWeak e.1).
Proof. intros Hg. unfold matches. by rewrite (deref_live _ Hg). Qed.

(** The loop never raises; it returns the image of the last entry of the
    list whose dereferenced referent is the key, and whatever it removes is
    an expired entry. *)
Lemma scan_all_result (l : list entry) :
  ∃ l', scan_all gone key l
        = (Ok (snd <$> last (filter (matches gone key) l)), l')
      ∧ l' `sublist_of` l
      ∧ ∀ (P : entry → Prop) (HP : ∀ e, Decision (P e)),
          (∀ e, expired gone e → ¬ P e) → filter P l' = filter P l.
Proof.
  induction l as [l IH] using (induction_ltof1 _ length). unfold ltof in IH.
  destruct (decide (l = [])) as [->|Hne]; [by exists []|].
  destruct (exists_last Hne) as (a & [r p] & ->).
  rewrite scan_all_snoc, filter_app.
  destruct (decide (r ∈ gone)) as [Hg|Hg].
  - removed_last a' E.
    apply list_remove_snoc_Some in E as Hlen'.
    destruct (decide (key = PyNone)) as [Hk|Hk].
    + exists a'. split_and!.
      * rewrite (filter_cons_True _ (r, p)) by by apply matches_expired.
        by rewrite filter_nil, last_snoc.
      * by eapply list_remove_sublist.
      * intros P HP Hexp.
        eapply (list_remove_filter P); [done|]. by apply Hexp.
    + destruct (IH a') as (l' & -> & Hsub & Hl').
      { rewrite length_app. simpl. lia. }
      exists l'. split_and!.
      * rewrite <-filter_app.
        rewrite (list_remove_filter (matches gone key) _ _ _ E); [done|].
        by rewrite matches_expired.
      * etrans; [done|]. by eapply list_remove_sublist.
      * intros P HP Hexp. rewrite (Hl' P HP Hexp).
        eapply (list_remove_filter P); [done|]. by apply Hexp.
  - destruct (decide (key = PyWeak r)) as [Hk|Hk].
    + exists (a ++ [(r, p)]). split_and!.
      * rewrite (filter_cons_True _ (r, p)) by by apply matches_live.
        by rewrite filter_nil, last_snoc.
      * done.
      * done.
    + destruct (IH a) as (l' & -> & Hsub & Hl').
      { rewrite length_app. simpl. lia. }
      exists (l' ++ [(r, p)]). split_and!.
      * rewrite (filter_cons_False _ (r, p)) by by rewrite matches_live.
        by rewrite filter_nil, app_nil_r.
      * by apply sublist_app.
      * intros P HP Hexp. by rewrite !filter_app, (Hl' P HP Hexp).
Qed.

(** A lookup that matches nothing walks the whole list and leaves exactly
    the live entries, in their order. *)
Lemma scan_all_miss (l : list entry) :
  Forall (λ e, ¬ matches gone key e) l →
  scan_all gone key l = (Ok None, filter (live gone) l).
Proof.
  induction l as [l IH] using (induction_ltof1 _ length). unfold ltof in IH.
  intros Hno.
  destruct (decide (l = [])) as [->|Hne]; [done|].
  destruct (exists_last Hne) as (a & [r p] & ->).
  apply Forall_app in Hno as [Ha Hrp]. rewrite Forall_singleton in Hrp.
  rewrite scan_all_snoc, filter_app.
  destruct (decide (r ∈ gone)) as [Hg|Hg].
  - removed_last a' E.
    apply list_remove_snoc_Some in E as Hlen'.
    rewrite matches_expired in Hrp by done.
    rewrite decide_False by done.
    rewrite IH.
    + f_equal. rewrite <-filter_app.
      apply (list_remove_filter (live gone) _ _ _ E). by intros Hl.
    + rewrite length_app. simpl. lia.
    + apply Forall_forall. intros e He.
      apply (list_remove_elem_of _ _ _ _ E) in He.
      revert e He. apply Forall_forall, Forall_app. by rewrite Forall_singleton, matches_expired.
  - rewrite matches_live in Hrp by done. rewrite decide_False by done.
    rewrite IH; [|rewrite length_app; simpl; lia|done].
    by rewrite (filter_cons_True _ (r, p)), filter_nil.
Qed.

(** A lookup for an object: the walk stops at the most recent entry of
    that object; every expired entry behind it is gone, together with its
    equal copies in front of it, and nothing else has changed. *)
Lemma scan_all_hit_live (pre suf : list entry) r p :
  key ≠ PyNone →
  matches gone key (r, p) →
  Forall (λ e, ¬ matches gone key e) suf →
  scan_all gone key (pre ++ (r, p) :: suf)
  = (Ok (Some p),
     filter (λ e, ¬ (expired gone e ∧ e ∈ suf)) pre
       ++ (r, p) :: filter (live gone) suf).
Proof.
  intros Hkey Hm.
  assert (r ∉ gone) as Hr.
  { intros Hg. apply (matches_expired (r, p)) in Hm; done. }
  apply (matches_live (r, p)) in Hm; [|done]. simpl in Hm.
  remember (pre ++ (r, p) :: suf) as l eqn:Hl. revert pre suf Hl.
  induction l as [l IH] using (induction_ltof1 _ length). unfold ltof in IH.
  intros pre suf -> Hno.
  destruct (decide (suf = [])) as [->|Hne].
  { rewrite scan_all_snoc, !decide_False, decide_True by done.
    rewrite filter_nil. f_equal. f_equal. symmetry. apply filter_all.
    intros e _ [_ He]. by apply elem_of_nil in He. }
  destruct (exists_last Hne) as (suf0 & [r' p'] & ->).
  apply Forall_app in Hno as [Hno0 Hrp]. rewrite Forall_singleton in Hrp.
  rewrite app_comm_cons, (assoc_L (++)), scan_all_snoc.
  destruct (decide (r' ∈ gone)) as [Hg|Hg].
  - removed_last a' E.
    rewrite decide_False by done.
    rewrite <-(assoc_L (++)), <-app_comm_cons in E.
    destruct (decide ((r', p') ∈ pre)) as [Hin|Hin].
    + rewrite list_remove_app_l in E by done.
      destruct (list_remove (r', p') pre) as [pre'|] eqn:E'; [|done].
      simpl in E. injection E as <-.
      rewrite (λ H, IH _ H pre' (suf0 ++ [(r', p')]) eq_refl).
      * f_equal. f_equal.
        apply (list_remove_filter _ _ _ _ E').
        intros Hq. apply Hq. split; [done|]. set_solver.
      * apply list_remove_length in E'. rewrite !length_app. simpl.
        rewrite !length_app. simpl. lia.
      * apply Forall_app. by rewrite Forall_singleton.
    + rewrite list_remove_app_r in E by done.
      simpl in E. rewrite decide_False in E by congruence.
      destruct (list_remove (r', p') (suf0 ++ [(r', p')])) as [suf'|] eqn:E';
        [|done].
      simpl in E. injection E as <-.
      rewrite (λ H, IH _ H pre suf' eq_refl).
      * f_equal. f_equal; [|f_equal].
        -- apply filter_agree. intros e He. split; intros Hq [Hx Hy]; apply Hq.
           ++ split; [done|]. eapply list_remove_elem_of_ne; [done| |done].
              intros ->. done.
           ++ split; [done|]. by eapply list_remove_elem_of.
        -- apply (list_remove_filter _ _ _ _ E'). by intros Hl.
      * apply list_remove_length in E'. rewrite length_app in E'. simpl in E'.
        rewrite !length_app. simpl. rewrite !length_app. simpl. lia.
      * apply Forall_forall. intros e He.
        apply (list_remove_elem_of _ _ _ _ E') in He.
        revert e He. apply Forall_forall, Forall_app. by rewrite Forall_singleton.
  - rewrite matches_live in Hrp by done. simpl in Hrp.
    rewrite decide_False by done.
    rewrite (λ H, IH _ H pre suf0 eq_refl); [| |done].
    + f_equal. rewrite filter_app, (filter_cons_True _ (r', p')), filter_nil by done.
      rewrite <-(assoc_L (++)), <-app_comm_cons. f_equal. f_equal.
      apply filter_agree. intros e He. split; intros Hq [Hx Hy]; apply Hq.
      * split; [done|]. apply elem_of_app in Hy as [?|Hy]; [done|].
        apply list_elem_of_singleton in Hy as ->. done.
      * split; [done|]. apply elem_of_app. by left.
    + rewrite !length_app. simpl. rewrite !length_app. simpl. lia.
Qed.

(** A lookup for [None]: every expired entry dereferences to [None], so
    the walk stops at the most recent expired entry, after removing the first
    item equal to it. *)
Lemma scan_all_hit_none (pre suf : list entry) r p :
  key = PyNone →
  r ∈ gone →
  Forall (live gone) suf →
  ∃ front, list_remove (r, p) (pre ++ [(r, p)]) = Some front
         ∧ scan_all gone key (pre ++ (r, p) :: suf) = (Ok (Some p), front ++ suf).
Proof.
  intros Hkey Hr. induction suf as [|[r' p'] suf IH] using rev_ind; intros Hl.
  - rewrite scan_all_snoc, decide_True by done.
    removed_last a' E.
    exists a'. by rewrite decide_True, app_nil_r by done.
  - apply Forall_app in Hl as [Hl Hrp]. rewrite Forall_singleton in Hrp.
    destruct (IH Hl) as (front & Hfront & Hscan). exists front. split; [done|].
    rewrite app_comm_cons, (assoc_L (++)), scan_all_snoc.
    rewrite decide_False by done. rewrite decide_False by (by rewrite Hkey).
    by rewrite Hscan, <-(assoc_L (++)).
Qed.

End Scan.

(** *** The methods, unfolded *)

Section Methods.
Variable to_pimage : list image_arg → image_arg → result pimage.

Lemma check_cache_unfold image key (s : state) :
  first_of image = Ok key →
  _check_cache image s =
    let '(res, l') := scan_all (collected s) key (_weak_image_refs s) in
    (res, set_refs l' s).
Proof.
  intros Hk. unfold _check_cache, bind, lift, get, modify. rewrite Hk.
  by destruct (scan_all _ _ _) as [[?|?] ?].
Qed.

Lemma check_cache_raise image e (s : state) :
  first_of image = Raise e → _check_cache image s = (Raise e, s).
Proof. intros Hk. unfold _check_cache, bind, lift. by rewrite Hk. Qed.

Lemma resolve_hit image key (s : state) p l' :
  first_of image = Ok key →
  scan_all (collected s) key (_weak_image_refs s) = (Ok (Some p), l') →
  _check_cache_or_convert to_pimage image true s = (Ok p, set_refs l' s).
Proof.
  intros Hk Hscan. unfold _check_cache_or_convert, bind.
  by rewrite (check_cache_unfold _ _ _ Hk), Hscan.
Qed.

Lemma resolve_miss image key (s : state) l' :
  first_of image = Ok key →
  scan_all (collected s) key (_weak_image_refs s) = (Ok None, l') →
  _check_cache_or_convert to_pimage image true s =
    let s' := State l' (collected s) (converter_calls s ++ [image]) in
    match to_pimage (converter_calls s) image with
    | Ok p =>
        match weakref_ref key with
        | Ok r => (Ok p, State (l' ++ [(r, p)]) (collected s)
                               (converter_calls s ++ [image]))
        | Raise e => (Raise e, s')
        end
    | Raise e => (Raise e, s')
    end.
Proof.
  intros Hk Hscan. unfold _check_cache_or_convert, bind.
  rewrite (check_cache_unfold _ _ _ Hk), Hscan. simpl.
  unfold convert, bind, get, modify, lift, ret, _store_cache, bind, lift.
  simpl. destruct (to_pimage _ _) as [p|e]; [|done].
  rewrite Hk. by destruct (weakref_ref key).
Qed.

Lemma resolve_uncached image (s : state) :
  _check_cache_or_convert to_pimage image false s =
    (to_pimage (converter_calls s) image,
     State (_weak_image_refs s) (collected s) (converter_calls s ++ [image])).
Proof.
  unfold _check_cache_or_convert, bind, ret, convert, bind, get, modify, lift.
  simpl. by destruct (to_pimage _ _).
Qed.

Lemma resolve_raise image e (s : state) :
  first_of image = Raise e →
  _check_cache_or_convert to_pimage image true s = (Raise e, s).
Proof.
  intros Hk. unfold _check_cache_or_convert, bind.
  by rewrite (check_cache_raise _ _ _ Hk).
Qed.

Lemma resolve_cases image (s : state) :
  resolved to_pimage image s (_check_cache_or_convert to_pimage image true s).
Proof.
  destruct (first_of image) as [key|e] eqn:Hk.
  2:{ rewrite (resolve_raise _ _ _ Hk). by constructor. }
  destruct (scan_all_result (collected s) key (_weak_image_refs s))
    as (l' & Hscan & _).
  destruct (last (filter _ _)) as [[r p]|] eqn:Hlast; simpl in Hscan.
  - rewrite (resolve_hit _ _ _ _ _ Hk Hscan). by econstructor.
  - rewrite (resolve_miss _ _ _ _ Hk Hscan). simpl.
    destruct (to_pimage _ _) as [p|e] eqn:Hconv.
    + destruct key as [|x|x]; simpl.
      * by eapply resolved_unstored.
      * by eapply resolved_unstored.
      * by apply resolved_stored.
    + by eapply resolved_unconverted.
Qed.

Lemma filter_matches_live gone x (l : list entry) :
  x ∉ gone →
  filter (matches gone (PyWeak x)) l = filter (λ e, e.1 = x) l.
Proof.
  intros Hx. apply filter_agree. intros e _. unfold matches.
  split.
  - intros He. symmetry in He. by apply deref_weak in He as [? _].
  - intros <-. by rewrite deref_live.
Qed.

(** A lookup for a live object returns the image of its newest entry and
    leaves the entries of that object as they are. *)
Lemma scan_all_newest gone x (l : list entry) :
  x ∉ gone →
  ∃ l', scan_all gone (PyWeak x) l = (Ok (snd <$> newest x l), l')
      ∧ newest x l' = newest x l.
Proof.
  intros Hx.
  destruct (scan_all_result gone (PyWeak x) l) as (l' & Hscan & _ & Hkeep).
  exists l'. rewrite Hscan, filter_matches_live by done. split; [done|].
  unfold newest. rewrite (Hkeep (λ e, e.1 = x)); [done|].
  intros e He Heq. unfold expired in He. by rewrite Heq in He.
Qed.

Lemma newest_Some x (l : list entry) e : newest x l = Some e → e.1 = x.
Proof.
  unfold newest. intros He. apply last_Some_elem_of in He.
  by apply list_elem_of_filter in He as [? _].
Qed.

Lemma newest_snoc x (l : list entry) p : newest x (l ++ [(x, p)]) = Some (x, p).
Proof.
  unfold newest.
  by rewrite filter_app, (filter_cons_True _ (x, p)), filter_nil, last_snoc.
Qed.

Lemma newest_snoc_ne x (l : list entry) r p :
  r ≠ x → newest x (l ++ [(r, p)]) = newest x l.
Proof.
  intros Hne. unfold newest.
  by rewrite filter_app, (filter_cons_False _ (r, p)), filter_nil, app_nil_r.
Qed.

(** A cached request for a live object whose newest entry carries [p]
    answers [p] without calling the converter. *)
Lemma resolve_newest image x p (s : state) :
  first_of image = Ok (PyWeak x) →
  x ∉ collected s →
  newest x (_weak_image_refs s) = Some (x, p) →
  ∃ s', _check_cache_or_convert to_pimage image true s = (Ok p, s')
      ∧ converter_calls s' = converter_calls s
      ∧ collected s' = collected s
      ∧ newest x (_weak_image_refs s') = Some (x, p).
Proof.
  intros Hk Hx Hnew.
  destruct (scan_all_newest (collected s) x (_weak_image_refs s) Hx)
    as (l' & Hscan & Hkeep).
  rewrite Hnew in Hscan, Hkeep. simpl in Hscan.
  rewrite (resolve_hit _ _ _ _ _ Hk Hscan). by eexists.
Qed.

(** After a successful cached request for a live object, the newest entry
    of that object carries the image that was returned. *)
Lemma resolved_newest image x p (s s1 : state) :
  first_of image = Ok (PyWeak x) →
  x ∉ collected s →
  _check_cache_or_convert to_pimage image true s = (Ok p, s1) →
  newest x (_weak_image_refs s1) = Some (x, p) ∧ collected s1 = collected s.
Proof.
  intros Hk Hx Hres.
  destruct (scan_all_newest (collected s) x (_weak_image_refs s) Hx)
    as (l' & Hscan & Hkeep).
  pose proof (resolve_cases image s) as Hc. rewrite Hres in Hc.
  inversion Hc as [e He|key q l0 Hk' Hscan'|key l0 e|key l0 q e|y l0 q Hk' Hscan' Hconv];
    subst; try congruence.
  - rewrite Hk in Hk'. injection Hk' as <-.
    rewrite Hscan in Hscan'. injection Hscan' as Hq <-.
    simpl. split; [|done]. rewrite Hkeep.
    destruct (newest x (_weak_image_refs s)) as [[r q]|] eqn:Hnew; [|done].
    apply newest_Some in Hnew as Hr. simpl in *. congruence.
  - rewrite Hk in Hk'. injection Hk' as <-. simpl.
    split; [|done]. apply newest_snoc.
Qed.

(** *** Runs *)

Lemma step_collected o (s : state) :
  collected s ⊆ collected (step to_pimage o s).
Proof.
  destruct o as [image [|]|id|]; simpl.
  - pose proof (resolve_cases image s) as Hc.
    by inversion Hc.
  - by rewrite resolve_uncached.
  - set_solver.
  - done.
Qed.

Lemma run_collected ops (s : state) :
  collected s ⊆ collected (run to_pimage ops s).
Proof.
  revert s. induction ops as [|o ops IH]; intros s; [done|].
  simpl. etrans; [apply (step_collected o)|apply IH].
Qed.

Lemma step_newest o x e (s : state) :
  ¬ is_flush o →
  x ∉ collected (step to_pimage o s) →
  newest x (_weak_image_refs s) = Some e →
  newest x (_weak_image_refs (step to_pimage o s)) = Some e.
Proof.
  intros Hflush Hx Hnew.
  assert (x ∉ collected s) as Hx0.
  { intros ?. by apply Hx, (step_collected o). }
  destruct o as [image [|]|id|]; simpl in *.
  - pose proof (resolve_cases image s) as Hc.
    assert (∀ key res l',
      scan_all (collected s) key (_weak_image_refs s) = (Ok res, l') →
      newest x l' = Some e ∧ (key = PyWeak x → res ≠ None)) as Hscan.
    { intros key res l' Hs.
      destruct (scan_all_result (collected s) key (_weak_image_refs s))
        as (l0 & Hs0 & _ & Hkeep).
      rewrite Hs in Hs0. injection Hs0 as -> <-. split.
      - unfold newest. rewrite (Hkeep (λ e, e.1 = x)); [done|].
        intros e' He' Heq. unfold expired in He'. by rewrite Heq in He'.
      - intros ->. rewrite filter_matches_live by done.
        fold (newest x (_weak_image_refs s)). by rewrite Hnew. }
    inversion Hc as [e0 He|key q l0 Hk' Hs|key l0 e0 Hk' Hs|key l0 q e0 Hk' Hs
                    |y l0 q Hk' Hs Hconv]; simpl; try done;
      try (by apply (Hscan _ _ _ Hs)).
    destruct (Hscan _ _ _ Hs) as [Hl0 Hne].
    rewrite newest_snoc_ne; [done|]. intros ->. by apply Hne.
  - by rewrite resolve_uncached.
  - done.
  - by destruct Hflush.
Qed.

Lemma run_newest ops x e (s : state) :
  Forall (λ o, ¬ is_flush o) ops →
  x ∉ collected (run to_pimage ops s) →
  newest x (_weak_image_refs s) = Some e →
  newest x (_weak_image_refs (run to_pimage ops s)) = Some e.
Proof.
  revert s. induction ops as [|o ops IH]; intros s Hops Hx Hnew; [done|].
  apply Forall_cons in Hops as [Ho Hops]. simpl in *.
  apply IH; [done..|]. apply step_newest; [done| |done].
  intros ?. by apply Hx, run_collected.
Qed.

(** A cached request that succeeds on a key other than [None] was made
    for an object that supports weak references. *)
Lemma resolved_weak image key p (s s1 : state) :
  first_of image = Ok key →
  key ≠ PyNone →
  _check_cache_or_convert to_pimage image true s = (Ok p, s1) →
  ∃ x, key = PyWeak x.
Proof.
  intros Hk Hkey Hres.
  pose proof (resolve_cases image s) as Hc. rewrite Hres in Hc.
  inversion Hc as [e He|key' q l0 Hk' Hs|key' l0 e|key' l0 q e
                  |y l0 q Hk' Hs Hconv]; subst; try congruence.
  2:{ exists y. congruence. }
  rewrite Hk in Hk'. injection Hk' as <-.
  destruct (scan_all_result (collected s) key (_weak_image_refs s))
    as (l1 & Hs1 & _).
  rewrite Hs in Hs1. injection Hs1 as Hlast _.
  destruct (last _) as [[r q']|] eqn:Hl; [|done].
  apply last_Some_elem_of, list_elem_of_filter in Hl as [Hm _].
  unfold matches, deref in Hm. simpl in Hm.
  destruct (decide (r ∈ collected s)); [done|by exists r].
Qed.

(** *** The invariant *)

Lemma filter_live_mono (gone gone' : gset nat) (l : list entry) :
  gone ⊆ gone' →
  filter (live gone') l `sublist_of` filter (live gone) l.
Proof.
  intros Hsub.
  rewrite <-(list_filter_filter_l (live gone') (live gone)).
  - apply sublist_filter.
  - intros e He Hg. apply He. by apply Hsub.
Qed.

Lemma step_at_most_one_live o (s : state) :
  at_most_one_live s → at_most_one_live (step to_pimage o s).
Proof.
  unfold at_most_one_live. intros Hinv.
  destruct o as [image [|]|id|]; simpl.
  - pose proof (resolve_cases image s) as Hc.
    assert (∀ key res l',
      scan_all (collected s) key (_weak_image_refs s) = (Ok res, l') →
      filter (live (collected s)) l' = filter (live (collected s)) (_weak_image_refs s)
      ∧ (res = None → Forall (λ e, ¬ matches (collected s) key e)
                             (_weak_image_refs s))) as Hscan.
    { intros key res l' Hs.
      destruct (scan_all_result (collected s) key (_weak_image_refs s))
        as (l0 & Hs0 & _ & Hkeep).
      rewrite Hs in Hs0. injection Hs0 as -> <-. split.
      - apply Hkeep. intros e He Hl. done.
      - intros Hnone. apply fmap_None, last_None in Hnone.
        apply Forall_forall. intros e He Hm.
        by apply (filter_nil_not_elem_of _ _ e Hnone Hm). }
    inversion Hc as [e0 He|key q l0 Hk' Hs|key l0 e0 Hk' Hs|key l0 q e0 Hk' Hs
                    |y l0 q Hk' Hs Hconv]; simpl; try done;
      try (destruct (Hscan _ _ _ Hs) as [-> _]; done).
    destruct (Hscan _ _ _ Hs) as [Hl0 Hno]. specialize (Hno eq_refl).
    rewrite filter_app, Hl0, fmap_app.
    destruct (decide (y ∈ collected s)) as [Hy|Hy].
    + by rewrite (filter_cons_False _ (y, q)), filter_nil, app_nil_r by by intros ?.
    + rewrite (filter_cons_True _ (y, q)), filter_nil by done. simpl.
      apply NoDup_app. split_and!; [done| |apply NoDup_singleton].
      intros r Hr ->%list_elem_of_singleton.
      apply list_elem_of_fmap in Hr as ([r q'] & -> & Hin).
      apply list_elem_of_filter in Hin as [Hl Hin]. simpl in *.
      eapply Forall_forall in Hno; [|exact Hin]. apply Hno.
      unfold matches. simpl. by rewrite deref_live.
  - by rewrite resolve_uncached.
  - eapply sublist_NoDup; [exact Hinv|].
    apply fmap_sublist, filter_live_mono. set_solver.
  - apply NoDup_nil_2.
Qed.

Lemma run_at_most_one_live ops (s : state) :
  at_most_one_live s → at_most_one_live (run to_pimage ops s).
Proof.
  revert s. induction ops as [|o ops IH]; intros s Hs; [done|].
  simpl. by apply IH, step_at_most_one_live.
Qed.

End Methods.
End ImageCache.

(** ** Claims about the weak image cache *)

Module ImageCacheClaims.
Import ImageMixin ImageCache.

(** The loop at work.  An expired entry behind the hit is removed together
    with its equal copy in front of the hit; the more recent of two entries
    of one object answers. *)
Example scan_all_evicts_and_hits :
  scan_all {[1]} (PyWeak 2) [(1, 10); (2, 20); (2, 21); (1, 10); (3, 30)]
  = (Ok (Some 21), [(2, 20); (2, 21); (3, 30)]).
Proof. reflexivity. Qed.

(** A hit leaves the expired entries in front of it alone. *)
Example scan_all_stops_at_hit :
  scan_all {[1]} (PyWeak 2) [(1, 10); (2, 20)] = (Ok (Some 20), [(1, 10); (2, 20)]).
Proof. reflexivity. Qed.

(** For the key [None] the walk stops at the most recent expired entry:
    [ref()] is [None] there, and [None is None]. *)
Example scan_all_none_key :
  scan_all {[1]} PyNone [(1, 10); (2, 20)] = (Ok (Some 10), [(2, 20)]).
Proof. reflexivity. Qed.

(** C2.  A cached lookup normalises its key ([first_of]) and walks the
    entries from the most recently appended one backwards.
    - When no entry dereferences to the key, the whole list is walked, the
      result is [None] and exactly the live entries remain, in their order.
    - Otherwise the walk stops at the most recent entry [(r, p)] whose
      dereferenced referent is the key and returns [p], whatever older
      entries for the same key lie in front of it.  Every expired entry
      [e] met behind it is removed (no copy of it is left anywhere), the
      live entries behind it stay, and the entries in front are untouched
      apart from copies of the removed ones.  The match itself is expired
      only for the key [None]; then [list.remove] has dropped the first item
      equal to it. *)
Theorem check_cache_reverse_scan (s : state) (image : image_arg) (key : pyobj) :
  first_of image = Ok key →
  let gone := collected s in
  let refs := _weak_image_refs s in
  (Forall (λ e, ¬ matches gone key e) refs →
     _check_cache image s = (Ok None, set_refs (filter (live gone) refs) s))
  ∧ (∀ pre r p suf,
       refs = pre ++ (r, p) :: suf →
       matches gone key (r, p) →
       Forall (λ e, ¬ matches gone key e) suf →
       ∃ front,
         _check_cache image s
           = (Ok (Some p), set_refs (front ++ filter (live gone) suf) s)
         ∧ (∀ e, e ∈ suf → expired gone e →
                 e ∉ front ++ filter (live gone) suf)
         ∧ (r ∉ gone →
              front = filter (λ e, ¬ (expired gone e ∧ e ∈ suf)) pre ++ [(r, p)])
         ∧ (r ∈ gone → list_remove (r, p) (pre ++ [(r, p)]) = Some front)).
Proof.
  intros Hk gone refs. split.
  - intros Hno. rewrite (check_cache_unfold _ _ _ Hk).
    fold gone refs. by rewrite (scan_all_miss gone key refs Hno).
  - intros pre r p suf Hrefs Hm Hno.
    rewrite (check_cache_unfold _ _ _ Hk). fold gone refs. rewrite Hrefs.
    destruct (decide (r ∈ gone)) as [Hr|Hr].
    + apply (matches_expired gone key (r, p)) in Hm as Hkey; [|done].
      assert (Forall (live gone) suf) as Hlive.
      { eapply Forall_impl; [exact Hno|]. intros e He Hg. apply He.
        by apply matches_expired. }
      destruct (scan_all_hit_none gone key pre suf r p Hkey Hr Hlive)
        as (front & Hfront & ->).
      exists front. rewrite (filter_all (live gone) suf).
      2:{ intros e He. by eapply Forall_forall in Hlive. }
      split_and!; [done| |done|done].
      intros e He Hexp. eapply Forall_forall in Hlive; [|exact He]. done.
    + assert (key ≠ PyNone) as Hkey.
      { apply (matches_live gone key (r, p)) in Hm; [|done]. by rewrite Hm. }
      rewrite (scan_all_hit_live gone key pre suf r p Hkey Hm Hno).
      exists (filter (λ e, ¬ (expired gone e ∧ e ∈ suf)) pre ++ [(r, p)]).
      rewrite <-(assoc_L (++)). split_and!; [done| |done|done].
      intros e He Hexp [Hin|Hin]%elem_of_app.
      * apply list_elem_of_filter in Hin as [Hq _]. by apply Hq.
      * apply elem_of_cons in Hin as [->|Hin]; [done|].
        apply list_elem_of_filter in Hin as [Hl _]. done.
Qed.

Lemma check_cache_reverse_scan_witness :
  let s := State [(1, 10); (2, 20); (2, 21); (1, 10); (3, 30)] {[1]} [] in
  _check_cache (Tuple [PyWeak 2; PyPlain 9]) s
  = (Ok (Some 21), set_refs [(2, 20); (2, 21); (3, 30)] s).
Proof.
  intros s.
  destruct (check_cache_reverse_scan s (Tuple [PyWeak 2; PyPlain 9])
              (PyWeak 2) eq_refl) as [_ H].
  destruct (H [(1, 10); (2, 20)] 2 21 [(1, 10); (3, 30)] eq_refl)
    as (front & Hres & _ & Hfront & _).
  - compute_done.
  - compute_done.
  - rewrite Hres, Hfront; [reflexivity|]. compute_done.
Defined.

(** C1 (as stated, refuted).  The entry of a reclaimed object is not always
    evicted by the next lookup scan: a scan that hits a more recently
    appended entry returns before reaching it.  Here object 1 and then
    object 2 are cached and object 1 is reclaimed; the next lookup, for
    object 2, answers from the cache, converts nothing and leaves the
    expired entry of object 1 where it was. *)
Lemma expired_entry_survives_next_scan :
  let s := run numbering_converter
             [Resolve (Single (PyWeak 1)) true;
              Resolve (Single (PyWeak 2)) true;
              Collect 1] (initial ∅) in
  let '(res, s') :=
    _check_cache_or_convert numbering_converter (Single (PyWeak 2)) true s in
  1 ∈ collected s
  ∧ _weak_image_refs s = [(1, 100); (2, 101)]
  ∧ res = Ok 101
  ∧ (1, 100) ∈ _weak_image_refs s'
  ∧ converter_calls s' = converter_calls s.
Proof. vm_compute. split_and!; try done; set_solver. Qed.

(** C1 (amended).  While the object [x] stays live: once a cached request
    for [x] (alone or as the first item of a tuple) has returned the image
    [p], every later cached request for [x] returns [p] and does not call the
    converter, whatever other requests and reclamations happen in between,
    as long as the cache is not flushed.  Once [x] has been reclaimed: its
    entry is evicted by the next lookup scan that reaches it, that is, a
    lookup for an object none of whose entries is more recent than the
    entry of [x]; and when that lookup matches nothing at all, the converter
    is called on the argument. *)
Theorem cached_image_reused_until_reclaimed
    (to_pimage : list image_arg → image_arg → result pimage) :
  (∀ (s s1 : state) image image' x p ops,
     first_of image = Ok (PyWeak x) →
     first_of image' = Ok (PyWeak x) →
     _check_cache_or_convert to_pimage image true s = (Ok p, s1) →
     Forall (λ o, ¬ is_flush o) ops →
     x ∉ collected (run to_pimage ops s1) →
     ∃ s3, _check_cache_or_convert to_pimage image' true (run to_pimage ops s1)
             = (Ok p, s3)
         ∧ converter_calls s3 = converter_calls (run to_pimage ops s1))
  ∧ (∀ (s : state) image key x p before after,
       first_of image = Ok key →
       key ≠ PyNone →
       alive (collected s) key →
       x ∈ collected s →
       _weak_image_refs s = before ++ (x, p) :: after →
       Forall (λ e, ¬ matches (collected s) key e) after →
       let s' := (_check_cache_or_convert to_pimage image true s).2 in
       ((x, p) ∉ _weak_image_refs s')
       ∧ (Forall (λ e, ¬ matches (collected s) key e) before →
          converter_calls s' = converter_calls s ++ [image])).
Proof.
  split.
  - intros s s1 image image' x p ops Hk Hk' Hres Hops Hx.
    assert (x ∉ collected s1) as Hx1.
    { intros ?. by apply Hx, run_collected. }
    destruct (resolved_newest to_pimage image x p s s1) as [Hnew Hcol]; [done| |done|].
    { intros ?. apply Hx1. pose proof (step_collected to_pimage (Resolve image true) s) as Hsub.
      simpl in Hsub. rewrite Hres in Hsub. by apply Hsub. }
    apply (run_newest to_pimage ops) in Hnew; [|done..].
    destruct (resolve_newest to_pimage image' x p _ Hk' Hx Hnew)
      as (s3 & Hs3 & Hcalls & _).
    by exists s3.
  - intros s image key x p before after Hk Hkey Halive Hx Hrefs Hafter s'.
    assert (¬ matches (collected s) key (x, p)) as Hxp.
    { by rewrite matches_expired. }
    pose proof (resolve_cases to_pimage image s) as Hc.
    destruct (decide (Exists (matches (collected s) key) before)) as [Hex|Hex].
    + apply split_last in Hex as (pre & [r q] & suf & -> & Hm & Hsuf); [|apply _].
      assert (Forall (λ e, ¬ matches (collected s) key e)
                (suf ++ (x, p) :: after)) as Hno.
      { apply Forall_app. split; [done|]. by apply Forall_cons. }
      pose proof (scan_all_hit_live (collected s) key pre _ r q Hkey Hm Hno)
        as Hscan.
      rewrite <-(assoc_L (++)), <-app_comm_cons in Hrefs.
      rewrite <-Hrefs in Hscan.
      subst s'. rewrite (resolve_hit _ _ _ _ _ _ Hk Hscan). simpl. split.
      * intros [Hin|Hin]%elem_of_app.
        -- apply list_elem_of_filter in Hin as [Hq _]. apply Hq.
           split; [done|]. set_solver.
        -- apply elem_of_cons in Hin as [Heq|Hin].
           ++ injection Heq as -> ->. done.
           ++ apply list_elem_of_filter in Hin as [Hl _]. done.
      * intros Hbefore. apply Forall_app in Hbefore as [_ Hb].
        apply Forall_cons in Hb as [Hb _]. done.
    + apply not_Exists_Forall in Hex; [|apply _].
      assert (Forall (λ e, ¬ matches (collected s) key e) (_weak_image_refs s))
        as Hno.
      { rewrite Hrefs. apply Forall_app. split; [done|]. by apply Forall_cons. }
      pose proof (scan_all_miss (collected s) key _ Hno) as Hscan.
      assert ((x, p) ∉ filter (live (collected s)) (_weak_image_refs s)) as Hout.
      { intros [Hl _]%list_elem_of_filter. done. }
      subst s'.
      inversion Hc as [e0 Hk'|key' q l0 Hk' Hs|key' l0 e0 Hk' Hs
                      |key' l0 q e0 Hk' Hs|y l0 q Hk' Hs Hconv];
        rewrite Hk in Hk'; try discriminate Hk'; injection Hk' as Hkk;
        first [subst key' | subst key];
        rewrite Hscan in Hs; try discriminate Hs; injection Hs as <-; simpl;
        try done.
      split; [|done].
      intros [Hin|Hin]%elem_of_app; [done|].
      apply list_elem_of_singleton in Hin. injection Hin as -> ->.
      simpl in Halive. done.
Qed.

Lemma cached_image_reused_until_reclaimed_witness :
  let conv := numbering_converter in
  let s1 := (_check_cache_or_convert conv (Single (PyWeak 1)) true (initial ∅)).2 in
  let s2 := run conv [Resolve (Single (PyWeak 2)) true; Collect 2;
                      Resolve (Single (PyWeak 3)) false] s1 in
  (∃ s3, _check_cache_or_convert conv (Tuple [PyWeak 1; PyPlain 5]) true s2
           = (Ok 100, s3)
       ∧ converter_calls s3 = converter_calls s2)
  ∧ (let s' := (_check_cache_or_convert conv (Single (PyWeak 4)) true s2).2 in
     ((2, 101) ∉ _weak_image_refs s')
     ∧ converter_calls s' = converter_calls s2 ++ [Single (PyWeak 4)]).
Proof.
  intros conv s1 s2.
  destruct (cached_image_reused_until_reclaimed conv) as [HA HB]. split.
  - apply (HA (initial ∅) s1 (Single (PyWeak 1)) (Tuple [PyWeak 1; PyPlain 5])
              1 100 [Resolve (Single (PyWeak 2)) true; Collect 2;
                     Resolve (Single (PyWeak 3)) false]).
    + reflexivity.
    + reflexivity.
    + reflexivity.
    + repeat constructor; discriminate.
    + compute_done.
  - destruct (HB s2 (Single (PyWeak 4)) (PyWeak 4) 2 101 [(1, 100)] [])
      as [Hgone Hconv].
    + reflexivity.
    + discriminate.
    + compute_done.
    + compute_done.
    + reflexivity.
    + constructor.
    + split; [exact Hgone|]. apply Hconv. compute_done.
Defined.

(** C3.  Only the first item of a tuple takes part in the lookup and in
    the weak reference that is stored.

    Storage: a cached request with the tuple [(x, extra...)], made while the
    cache holds no entry of the object [x] and answered by the converter
    with the image [p], returns [p]; it hands the whole tuple to the
    converter, once, and appends the entry [(x, p)], keyed by [x] alone, to
    the live entries.

    Lookup: whenever a cached request with the tuple [(x, extra...)] has
    returned an image [p] ([x] any value but [None]), [x] is an object that
    can be weakly referenced and the most recent entry of [x] afterwards is
    [(x, p)]: either it already was before the request and the converter was
    not called, or the request converted the tuple and stored that entry as
    above.  A later cached request with the tuple [(x, other...)] then
    returns [p], does not call the converter and leaves [(x, p)] the most
    recent entry of [x].  [x] is still referenced when the second request is
    made; requests for other objects and reclamations may happen in between,
    a flush may not. *)
Theorem tuples_share_first_item_entry
    (to_pimage : list image_arg → image_arg → result pimage) :
  (∀ (s : state) (x : nat) (extra : list pyobj) (p : pimage),
     x ∉ collected s →
     newest x (_weak_image_refs s) = None →
     to_pimage (converter_calls s) (Tuple (PyWeak x :: extra)) = Ok p →
     _check_cache_or_convert to_pimage (Tuple (PyWeak x :: extra)) true s
       = (Ok p,
          State (filter (live (collected s)) (_weak_image_refs s) ++ [(x, p)])
                (collected s)
                (converter_calls s ++ [Tuple (PyWeak x :: extra)])))
  ∧ (∀ (s s1 : state) (x : pyobj) (extra other : list pyobj) (p : pimage)
       (ops : list op),
       x ≠ PyNone →
       _check_cache_or_convert to_pimage (Tuple (x :: extra)) true s = (Ok p, s1) →
       Forall (λ o, ¬ is_flush o) ops →
       alive (collected (run to_pimage ops s1)) x →
       ∃ id,
         x = PyWeak id
         ∧ newest id (_weak_image_refs s1) = Some (id, p)
         ∧ (newest id (_weak_image_refs s) = Some (id, p)
            ∧ converter_calls s1 = converter_calls s
            ∨ newest id (_weak_image_refs s) = None
              ∧ to_pimage (converter_calls s) (Tuple (x :: extra)) = Ok p
              ∧ converter_calls s1 = converter_calls s ++ [Tuple (x :: extra)]
              ∧ _weak_image_refs s1
                = filter (live (collected s)) (_weak_image_refs s) ++ [(id, p)])
         ∧ ∃ s3,
             _check_cache_or_convert to_pimage (Tuple (x :: other)) true
               (run to_pimage ops s1) = (Ok p, s3)
             ∧ converter_calls s3 = converter_calls (run to_pimage ops s1)
             ∧ newest id (_weak_image_refs s3) = Some (id, p)).
Proof.
  assert (∀ (s : state) x,
    x ∉ collected s →
    newest x (_weak_image_refs s) = None →
    scan_all (collected s) (PyWeak x) (_weak_image_refs s)
      = (Ok None, filter (live (collected s)) (_weak_image_refs s))) as Hmiss.
  { intros s x Hx Hnone. apply scan_all_miss.
    apply last_None in Hnone.
    apply Forall_forall. intros e He Hm.
    apply (filter_nil_not_elem_of _ _ e Hnone); [|done].
    unfold matches, deref in Hm. destruct (decide (e.1 ∈ collected s)); congruence. }
  split.
  - intros s x extra p Hx Hnone Hconv.
    rewrite (resolve_miss to_pimage (Tuple (PyWeak x :: extra)) (PyWeak x) s _
               eq_refl (Hmiss s x Hx Hnone)).
    simpl. by rewrite Hconv.
  - intros s s1 x extra other p ops Hx Hres Hops Halive.
    destruct (resolved_weak to_pimage (Tuple (x :: extra)) x p s s1)
      as [id ->]; [done..|].
    simpl in Halive.
    assert (id ∉ collected s1) as Hid1.
    { intros ?. by apply Halive, run_collected. }
    assert (id ∉ collected s) as Hid.
    { intros ?. apply Hid1.
      pose proof (step_collected to_pimage
                    (Resolve (Tuple (PyWeak id :: extra)) true) s) as Hsub.
      simpl in Hsub. rewrite Hres in Hsub. by apply Hsub. }
    destruct (resolved_newest to_pimage (Tuple (PyWeak id :: extra)) id p s s1)
      as [Hnew Hcol]; [done..|].
    exists id. split_and!; [done|done| |].
    + destruct (newest id (_weak_image_refs s)) as [[r q]|] eqn:Hold.
      * left.
        destruct (scan_all_newest (collected s) id (_weak_image_refs s) Hid)
          as (l' & Hscan & _).
        rewrite Hold in Hscan. simpl in Hscan.
        rewrite (resolve_hit to_pimage (Tuple (PyWeak id :: extra)) (PyWeak id) s q l' eq_refl Hscan) in Hres.
        injection Hres as -> <-.
        apply newest_Some in Hold. simpl in Hold. by subst r.
      * right.
        rewrite (resolve_miss to_pimage (Tuple (PyWeak id :: extra)) (PyWeak id)
                   s _ eq_refl (Hmiss s id Hid Hold)) in Hres.
        simpl in Hres.
        destruct (to_pimage (converter_calls s) (Tuple (PyWeak id :: extra)))
          as [q|e]; [|discriminate Hres].
        injection Hres as -> <-. done.
    + pose proof (run_newest to_pimage ops _ _ _ Hops Halive Hnew) as Hnew2.
      destruct (resolve_newest to_pimage (Tuple (PyWeak id :: other)) id p _
                  eq_refl Halive Hnew2) as (s3 & Hs3 & Hcalls & _ & Hnew3).
      by exists s3.
Qed.

Lemma tuples_share_first_item_entry_witness :
  let conv := numbering_converter in
  let first := Tuple [PyWeak 1; PyPlain 7] in
  let s1 := State [(1, 100)] ∅ [first] in
  let s2 := run conv [Resolve (Single (PyWeak 2)) true; Collect 2] s1 in
  _check_cache_or_convert conv first true (initial ∅) = (Ok 100, s1)
  ∧ ∃ s3, _check_cache_or_convert conv (Tuple [PyWeak 1; PyPlain 8; PyNone]) true s2
            = (Ok 100, s3)
        ∧ converter_calls s3 = converter_calls s2
        ∧ newest 1 (_weak_image_refs s3) = Some (1, 100).
Proof.
  intros conv first s1 s2.
  destruct (tuples_share_first_item_entry conv) as [HA HB].
  assert (_check_cache_or_convert conv first true (initial ∅) = (Ok 100, s1))
    as Hfirst.
  { apply (HA (initial ∅) 1 [PyPlain 7] 100).
    - compute_done.
    - reflexivity.
    - reflexivity. }
  split; [exact Hfirst|].
  destruct (HB (initial ∅) s1 (PyWeak 1) [PyPlain 7] [PyPlain 8; PyNone] 100
              [Resolve (Single (PyWeak 2)) true; Collect 2])
    as (id & Hid & _ & _ & Hsecond).
  - discriminate.
  - exact Hfirst.
  - repeat constructor; discriminate.
  - compute_done.
  - injection Hid as <-. exact Hsecond.
Defined.

(** C4.  Starting from the empty cache, after any sequence of conversion
    requests (cached or not, for any argument), reclamations and flushes, no
    two live entries refer to the same object.  A request leaves the list a
    sublist of what it was, unless it is a cached request for an object [x]
    whose lookup walked the whole list (so that exactly the live entries
    remain) and found no live entry of [x]; only then is an entry for [x]
    appended. *)
Theorem one_live_entry_per_object
    (to_pimage : list image_arg → image_arg → result pimage) :
  (∀ gone ops, at_most_one_live (run to_pimage ops (initial gone)))
  ∧ (∀ (s : state) image cache,
       let s' := step to_pimage (Resolve image cache) s in
       _weak_image_refs s' `sublist_of` _weak_image_refs s
       ∨ ∃ x p,
           cache = true
           ∧ first_of image = Ok (PyWeak x)
           ∧ (x ∉ (filter (live (collected s)) (_weak_image_refs s)).*1)
           ∧ _weak_image_refs s'
             = filter (live (collected s)) (_weak_image_refs s) ++ [(x, p)]).
Proof.
  split.
  - intros gone ops. apply run_at_most_one_live. apply NoDup_nil_2.
  - intros s image [|] s'; subst s'; simpl.
    2:{ left. by rewrite resolve_uncached. }
    pose proof (resolve_cases to_pimage image s) as Hc.
    assert (∀ key res l',
      scan_all (collected s) key (_weak_image_refs s) = (Ok res, l') →
      l' `sublist_of` _weak_image_refs s) as Hsub.
    { intros key res l' Hs.
      destruct (scan_all_result (collected s) key (_weak_image_refs s))
        as (l0 & Hs0 & Hsub & _).
      rewrite Hs in Hs0. by injection Hs0 as -> <-. }
    inversion Hc as [e0 He|key q l0 Hk' Hs|key l0 e0 Hk' Hs|key l0 q e0 Hk' Hs
                    |y l0 q Hk' Hs Hconv]; simpl;
      try (left; first [done | by eapply Hsub]).
    right. exists y, q.
    destruct (scan_all_result (collected s) (PyWeak y) (_weak_image_refs s))
      as (l1 & Hs1 & _ & _).
    rewrite Hs in Hs1. injection Hs1 as Hnone _.
    symmetry in Hnone. apply fmap_None, last_None in Hnone.
    assert (Forall (λ e, ¬ matches (collected s) (PyWeak y) e)
              (_weak_image_refs s)) as Hno.
    { apply Forall_forall. intros e He Hm.
      by apply (filter_nil_not_elem_of _ _ e Hnone Hm). }
    rewrite (scan_all_miss _ _ _ Hno) in Hs. injection Hs as <-.
    split_and!; [done..| |done].
    intros Hin. apply list_elem_of_fmap in Hin as ([r q'] & -> & Hin).
    apply list_elem_of_filter in Hin as [Hl Hin]. simpl in *.
    eapply Forall_forall in Hno; [|exact Hin]. apply Hno.
    unfold matches. simpl. by rewrite deref_live.
Qed.

Lemma one_live_entry_per_object_witness :
  at_most_one_live
    (run numbering_converter
       [Resolve (Single (PyWeak 1)) true;
        Resolve (Tuple [PyWeak 1; PyPlain 3]) true;
        Resolve (Single (PyWeak 2)) true;
        Collect 1;
        Resolve (Single (PyWeak 3)) true;
        Flush;
        Resolve (Single (PyWeak 2)) true] (initial ∅)).
Proof.
  destruct (one_live_entry_per_object numbering_converter) as [H _].
  apply H.
Defined.

End ImageCacheClaims.

(** ** Further properties of the image mixin *)

Module ImageMixinProps.
Import ImageMixin ImageCache.

Section Props.
Variable to_pimage : list image_arg → image_arg → result pimage.

(** X1.  [_check_cache] fails in one way only: on the empty tuple it
    raises [IndexError] and leaves the state alone.  On any other argument
    it returns ([list.remove] always finds the item it is given), what is
    left of the list is a sublist of what was there, and the live entries
    are all kept, in their order. *)
Theorem check_cache_outcome (image : image_arg) (s : state) :
  (image = Tuple [] ∧ _check_cache image s = (Raise IndexError, s))
  ∨ (∃ res l',
       _check_cache image s = (Ok res, set_refs l' s)
       ∧ l' `sublist_of` _weak_image_refs s
       ∧ filter (live (collected s)) l'
         = filter (live (collected s)) (_weak_image_refs s)).
Proof.
  destruct (first_of image) as [key|e] eqn:Hk.
  - right.
    destruct (scan_all_result (collected s) key (_weak_image_refs s))
      as (l' & Hscan & Hsub & Hkeep).
    eexists _, l'. rewrite (check_cache_unfold _ _ _ Hk), Hscan.
    split_and!; [done..|]. apply Hkeep. intros e He Hl. done.
  - left. destruct image as [o|[|o items]]; simpl in Hk; [done| |done].
    injection Hk as <-. done.
Qed.

(** X2.  A cached request for [None] (alone or as the first item of a
    tuple) is answered from the cache as soon as the cache holds an expired
    entry: the image that was converted for the most recently appended
    reclaimed object is returned, and the converter is not called. *)
Theorem none_request_gets_expired_image (image : image_arg) (s : state)
    (pre suf : list entry) (r : ref) (p : pimage) :
  first_of image = Ok PyNone →
  _weak_image_refs s = pre ++ (r, p) :: suf →
  r ∈ collected s →
  Forall (live (collected s)) suf →
  ∃ s', _check_cache_or_convert to_pimage image true s = (Ok p, s')
      ∧ converter_calls s' = converter_calls s.
Proof.
  intros Hk Hrefs Hr Hsuf.
  destruct (scan_all_hit_none (collected s) PyNone pre suf r p eq_refl Hr Hsuf)
    as (front & _ & Hscan).
  rewrite <-Hrefs in Hscan.
  rewrite (resolve_hit _ _ _ _ _ _ Hk Hscan). by eexists.
Qed.

(** X3.  A cached request whose picture (or first tuple item) is an object
    without weak-reference support never succeeds and never stores
    anything: the lookup walks the whole list, the converter is called, and
    when it succeeds [weakref.ref] raises [TypeError]; the converted image
    is lost.  The cache is left with exactly its live entries. *)
Theorem plain_object_cannot_be_cached (image : image_arg) (id : nat)
    (s : state) :
  first_of image = Ok (PyPlain id) →
  let '(r, s') := _check_cache_or_convert to_pimage image true s in
  r = match to_pimage (converter_calls s) image with
      | Ok _ => Raise TypeError
      | Raise e => Raise e
      end
  ∧ converter_calls s' = converter_calls s ++ [image]
  ∧ _weak_image_refs s'
    = filter (live (collected s)) (_weak_image_refs s).
Proof.
  intros Hk.
  assert (Forall (λ e, ¬ matches (collected s) (PyPlain id) e)
            (_weak_image_refs s)) as Hno.
  { apply Forall_forall. intros e _ Hm. unfold matches, deref in Hm.
    by destruct (decide (e.1 ∈ collected s)). }
  rewrite (resolve_miss _ _ _ _ _ Hk (scan_all_miss _ _ _ Hno)). simpl.
  by destruct (to_pimage _ _).
Qed.

(** X4.  After [flush_image_cache] the next cached request always calls
    the converter, whatever was cached before; when it returns an image, the
    cache holds the entry of that request and nothing else. *)
Theorem flush_forces_conversion (image : image_arg) (key : pyobj)
    (s : state) :
  first_of image = Ok key →
  let '(r, s') :=
    _check_cache_or_convert to_pimage image true (flush_image_cache s).2 in
  converter_calls s' = converter_calls s ++ [image]
  ∧ r = (match to_pimage (converter_calls s) image with
         | Ok p => match key with PyWeak _ => Ok p | _ => Raise TypeError end
         | Raise e => Raise e
         end)
  ∧ ∀ p, r = Ok p → ∃ x, key = PyWeak x ∧ _weak_image_refs s' = [(x, p)].
Proof.
  intros Hk. simpl.
  rewrite (resolve_miss to_pimage image key (set_refs [] s) [] Hk eq_refl).
  simpl.
  destruct (to_pimage _ _) as [p|e]; [|by split_and!].
  destruct key as [|x|x]; simpl; split_and!; try done.
  intros q [= <-]. by exists x.
Qed.

(** X5.  Whenever a cached request for a referenced object calls the
    converter, the cache holds no expired entry afterwards: a miss has
    walked the whole list. *)
Theorem conversion_purges_expired (image : image_arg) (key : pyobj)
    (s : state) :
  first_of image = Ok key →
  alive (collected s) key →
  let s' := (_check_cache_or_convert to_pimage image true s).2 in
  converter_calls s' ≠ converter_calls s →
  Forall (live (collected s')) (_weak_image_refs s').
Proof.
  intros Hk Halive s'. subst s'.
  pose proof (resolve_cases to_pimage image s) as Hc.
  assert (∀ l', scan_all (collected s) key (_weak_image_refs s) = (Ok None, l') →
                Forall (live (collected s)) l') as Hpurge.
  { intros l' Hs.
    destruct (scan_all_result (collected s) key (_weak_image_refs s))
      as (l0 & Hs0 & _ & _).
    rewrite Hs in Hs0. injection Hs0 as Hnone <-.
    symmetry in Hnone. apply fmap_None, last_None in Hnone.
    assert (Forall (λ e, ¬ matches (collected s) key e) (_weak_image_refs s))
      as Hno.
    { apply Forall_forall. intros e He Hm.
      by apply (filter_nil_not_elem_of _ _ e Hnone Hm). }
    rewrite (scan_all_miss _ _ _ Hno) in Hs. injection Hs as <-.
    apply Forall_forall. intros e He.
    by apply list_elem_of_filter in He as [? _]. }
  inversion Hc as [e0 Hk'|key' q l0 Hk' Hs|key' l0 e0 Hk' Hs
                  |key' l0 q e0 Hk' Hs|y l0 q Hk' Hs Hconv];
    rewrite Hk in Hk'; try discriminate Hk'; injection Hk' as Hkk;
    first [subst key' | subst key]; simpl; intros Hcalls; try done;
    try (by eapply Hpurge).
  apply Forall_app. split; [by apply Hpurge|]. by apply Forall_singleton.
Qed.

End Props.

Section Drawing.
Variable to_pimage : list image_arg → image_arg → result pimage.
Variable py5applet_image : pimage → list image_arg → result unit.
Variable py5applet_texture : pimage → result unit.

Local Abbreviation image := (image to_pimage py5applet_image).
Local Abbreviation texture := (texture to_pimage py5applet_texture).
Local Abbreviation frames := (frames to_pimage py5applet_image).

Lemma image_resolved img rest (k : sketch) p s1 :
  _check_cache_or_convert to_pimage img true (mixin k) = (Ok p, s1) →
  image (img :: rest) true k
  = (py5applet_image p rest, Sketch s1 (applet_calls k ++ [AppletImage p rest])).
Proof.
  intros Hres. unfold ImageMixin.image, bind, on_mixin, call_applet.
  by rewrite Hres.
Qed.

Lemma frames_cons img rest rests (k : sketch) :
  frames img (rest :: rests) k = frames img rests (image (img :: rest) true k).2.
Proof. done. Qed.

Lemma frames_hit img x p rests : ∀ k : sketch,
  first_of img = Ok (PyWeak x) →
  x ∉ collected (mixin k) →
  newest x (_weak_image_refs (mixin k)) = Some (x, p) →
  converter_calls (mixin (frames img rests k)) = converter_calls (mixin k)
  ∧ applet_calls (frames img rests k)
    = applet_calls k ++ (AppletImage p <$> rests).
Proof.
  induction rests as [|rest rests IH]; intros k Hk Hx Hnew.
  - simpl. by rewrite app_nil_r.
  - destruct (resolve_newest to_pimage img x p (mixin k) Hk Hx Hnew)
      as (s' & Hres & Hcalls & Hcol & Hnew').
    rewrite frames_cons, (image_resolved _ rest _ _ _ Hres).
    destruct (IH (Sketch s' (applet_calls k ++ [AppletImage p rest])))
      as [IH1 IH2]; [done|simpl; by rewrite Hcol|done|].
    cbn [snd]. rewrite IH1, IH2. cbn [mixin applet_calls fmap list_fmap].
    by rewrite Hcalls, <-(assoc_L (++)).
Qed.

(** X6.  Drawing one referenced picture frame after frame with
    [cache=True] converts it at most once: after the request of the first
    [image] call has returned the native image [p], every further
    [image] call for the same picture hands [p] to the applet, with its own
    trailing arguments, and does not call the converter, whether or not the
    applet accepts the calls. *)
Theorem cached_frames_convert_once (img : image_arg) (x : nat) (p : pimage)
    (rest : list image_arg) (rests : list (list image_arg))
    (k : sketch) (s1 : state) :
  first_of img = Ok (PyWeak x) →
  x ∉ collected (mixin k) →
  _check_cache_or_convert to_pimage img true (mixin k) = (Ok p, s1) →
  let k' := frames img rests (image (img :: rest) true k).2 in
  converter_calls (mixin k') = converter_calls s1
  ∧ applet_calls k'
    = applet_calls k ++ (AppletImage p <$> rest :: rests).
Proof.
  intros Hk Hx Hres k'. subst k'.
  rewrite (image_resolved _ rest _ _ _ Hres). cbn [snd].
  destruct (resolved_newest to_pimage img x p _ _ Hk Hx Hres) as [Hnew Hcol].
  destruct (frames_hit img x p rests
              (Sketch s1 (applet_calls k ++ [AppletImage p rest])))
    as [H1 H2]; [done|simpl; by rewrite Hcol|done|].
  rewrite H1, H2. cbn [mixin applet_calls fmap list_fmap].
  by rewrite <-(assoc_L (++)).
Qed.

(** X7.  [image] and [texture] share the cache: a picture converted for a
    cached [image] call is not converted again for a cached [texture] call
    (the picture being given alone or as the first item of a tuple); the
    applet receives the same native image. *)
Theorem texture_reuses_image_entry (img img' : image_arg) (x : nat)
    (p : pimage) (rest : list image_arg) (k : sketch) (s1 : state) :
  first_of img = Ok (PyWeak x) →
  first_of img' = Ok (PyWeak x) →
  x ∉ collected (mixin k) →
  _check_cache_or_convert to_pimage img true (mixin k) = (Ok p, s1) →
  let k1 := (image (img :: rest) true k).2 in
  let '(r, k2) := texture img' true k1 in
  r = py5applet_texture p
  ∧ converter_calls (mixin k2) = converter_calls s1
  ∧ applet_calls k2
    = applet_calls k ++ [AppletImage p rest; AppletTexture p].
Proof.
  intros Hk Hk' Hx Hres k1. subst k1.
  rewrite (image_resolved _ rest _ _ _ Hres). simpl.
  destruct (resolved_newest to_pimage img x p _ _ Hk Hx Hres) as [Hnew Hcol].
  destruct (resolve_newest to_pimage img' x p s1 Hk') as (s2 & Hres2 & Hcalls & _);
    [by rewrite Hcol|done|].
  unfold ImageMixin.texture, bind, on_mixin, call_applet. simpl.
  rewrite Hres2. simpl. by rewrite <-(assoc_L (++)).
Qed.

End Drawing.

Lemma none_request_gets_expired_image_witness :
  let s := State [(1, 100); (2, 101)] {[1]} [] in
  ∃ s', _check_cache_or_convert numbering_converter
          (Tuple [PyNone; PyPlain 4]) true s = (Ok 100, s')
      ∧ converter_calls s' = converter_calls s.
Proof.
  intros s.
  apply (none_request_gets_expired_image numbering_converter
           (Tuple [PyNone; PyPlain 4]) s [] [(2, 101)] 1 100).
  - reflexivity.
  - reflexivity.
  - compute_done.
  - compute_done.
Defined.

Lemma plain_object_cannot_be_cached_witness :
  let s := State [(1, 100); (2, 101)] {[1]} [] in
  let '(r, s') :=
    _check_cache_or_convert numbering_converter (Single (PyPlain 7)) true s in
  r = Raise TypeError
  ∧ converter_calls s' = [Single (PyPlain 7)]
  ∧ _weak_image_refs s' = [(2, 101)].
Proof.
  intros s.
  exact (plain_object_cannot_be_cached numbering_converter
           (Single (PyPlain 7)) 7 s eq_refl).
Defined.

Lemma flush_forces_conversion_witness :
  let s := State [(1, 100)] ∅ [Single (PyWeak 1)] in
  let '(r, s') :=
    _check_cache_or_convert numbering_converter (Single (PyWeak 1)) true
      (flush_image_cache s).2 in
  converter_calls s' = [Single (PyWeak 1); Single (PyWeak 1)]
  ∧ r = Ok 101
  ∧ ∀ p, r = Ok p → ∃ x, PyWeak 1 = PyWeak x ∧ _weak_image_refs s' = [(x, p)].
Proof.
  intros s.
  exact (flush_forces_conversion numbering_converter (Single (PyWeak 1))
           (PyWeak 1) s eq_refl).
Defined.

Lemma conversion_purges_expired_witness :
  let s := State [(1, 100); (2, 101)] {[1]} [] in
  Forall (live {[1]})
    (_weak_image_refs
       (_check_cache_or_convert numbering_converter (Single (PyWeak 3)) true s).2).
Proof.
  intros s.
  apply (conversion_purges_expired numbering_converter (Single (PyWeak 3))
           (PyWeak 3) s eq_refl).
  - compute_done.
  - discriminate.
Defined.

Lemma cached_frames_convert_once_witness :
  let accept := λ (_ : nat) (_ : list image_arg), Ok tt in
  let pic := Single (PyWeak 1) in
  let k := Sketch (initial ∅) [] in
  let k' := frames numbering_converter accept pic
              [[Single (PyPlain 20)]; [Single (PyPlain 30)]]
              (ImageMixin.image numbering_converter accept
                 (pic :: [Single (PyPlain 10)]) true k).2 in
  converter_calls (mixin k') = [pic]
  ∧ applet_calls k'
    = [AppletImage 100 [Single (PyPlain 10)];
       AppletImage 100 [Single (PyPlain 20)];
       AppletImage 100 [Single (PyPlain 30)]].
Proof.
  intros accept pic k.
  apply (cached_frames_convert_once numbering_converter accept pic 1 100
           [Single (PyPlain 10)] [[Single (PyPlain 20)]; [Single (PyPlain 30)]]
           k (State [(1, 100)] ∅ [pic])).
  - reflexivity.
  - compute_done.
  - reflexivity.
Defined.

Lemma texture_reuses_image_entry_witness :
  let accept := λ (_ : nat) (_ : list image_arg), Ok tt in
  let accept' := λ (_ : nat), Ok tt in
  let k := Sketch (initial ∅) [] in
  let k1 := (ImageMixin.image numbering_converter accept
               [Tuple [PyWeak 1; PyPlain 9]; Single (PyPlain 10)] true k).2 in
  let '(r, k2) := ImageMixin.texture numbering_converter accept'
                    (Single (PyWeak 1)) true k1 in
  r = Ok tt
  ∧ converter_calls (mixin k2) = [Tuple [PyWeak 1; PyPlain 9]]
  ∧ applet_calls k2
    = [AppletImage 100 [Single (PyPlain 10)]; AppletTexture 100].
Proof.
  intros accept accept' k.
  apply (texture_reuses_image_entry numbering_converter accept accept'
           (Tuple [PyWeak 1; PyPlain 9]) (Single (PyWeak 1)) 1 100
           [Single (PyPlain 10)] k
           (State [(1, 100)] ∅ [Tuple [PyWeak 1; PyPlain 9]])).
  - reflexivity.
  - reflexivity.
  - compute_done.
  - reflexivity.
Defined.

End ImageMixinProps.

(** ** Claims about [load_json] *)

Module DataClaims.
Import DataMixin.

Section Collaborators.
Context {path json kwargs : Type}.
Variable Path : string → path.
Variable str : path → string.
Variable is_absolute : path → bool.
Variable truediv : path → path → path.
Variable json_load : string → kwargs → result json.
Variable requests_get : string → result response.
Variable response_json : response → result json.
Variable sketch_path : path.

Local Abbreviation load_json :=
  (load_json path Path str is_absolute truediv json kwargs json_load
             requests_get response_json sketch_path).

(** C7.  For a text source that matches the URL pattern, [load_json]
    fetches it; with status 200 the outcome is that of parsing the response
    body, with any other status a [RuntimeError] is raised whose message
    ends with the reason phrase of the response; and the outcome is the same
    on every file system, so no file is consulted. *)
Theorem load_json_url (fs : filesystem path) (url : string) (kw : kwargs)
    (r : response) :
  re_match_http url = true →
  requests_get url = Ok r →
  (status_code r = 200%Z → load_json fs (Str path url) kw = response_json r)
  ∧ (status_code r ≠ 200%Z →
       load_json fs (Str path url) kw
       = Raise (RuntimeError ("Unable to download JSON URL: " +:+ reason r)))
  ∧ (∀ fs', load_json fs' (Str path url) kw = load_json fs (Str path url) kw).
Proof.
  intros Hurl Hget. unfold DataMixin.load_json. simpl.
  rewrite Hurl, Hget. simpl. split_and!.
  - intros Hs. by rewrite decide_True.
  - intros Hs. by rewrite decide_False.
  - done.
Qed.

(** C8.  For a source that is not a URL, a relative path is looked up as
    [<sketch_path>/data/<source>] when that exists and as
    [<sketch_path>/<source>] otherwise, an absolute path is taken as it is;
    when the path so found exists the outcome is that of reading it and
    parsing its text, and when it does not exist a [RuntimeError] is raised
    whose message ends with the source as given. *)
Theorem load_json_file (fs : filesystem path) (filename : source path)
    (kw : kwargs) :
  is_url path filename = false →
  let given := to_path path Path filename in
  let in_data := truediv (truediv sketch_path (Path "data")) given in
  let in_sketch := truediv sketch_path given in
  let parsed p := let? text := read_text path fs p in json_load text kw in
  let missing :=
    Raise (RuntimeError ("Unable to find JSON file " +:+ to_str path str filename)) in
  (is_absolute given = false → path_exists path fs in_data = true →
     load_json fs filename kw = parsed in_data)
  ∧ (is_absolute given = false → path_exists path fs in_data = false →
     path_exists path fs in_sketch = true →
     load_json fs filename kw = parsed in_sketch)
  ∧ (is_absolute given = false → path_exists path fs in_data = false →
     path_exists path fs in_sketch = false →
     load_json fs filename kw = missing)
  ∧ (is_absolute given = true → path_exists path fs given = true →
     load_json fs filename kw = parsed given)
  ∧ (is_absolute given = true → path_exists path fs given = false →
     load_json fs filename kw = missing).
Proof.
  intros Hurl given in_data in_sketch parsed missing.
  unfold DataMixin.load_json. rewrite Hurl. fold given in_data in_sketch.
  split_and!.
  - intros -> Hd. simpl. by rewrite !Hd.
  - intros -> Hd Hs. simpl. by rewrite Hd, Hs.
  - intros -> Hd Hs. simpl. by rewrite Hd, Hs.
  - intros -> He. simpl. by rewrite He.
  - intros -> He. simpl. by rewrite He.
Qed.

End Collaborators.

Lemma load_json_url_witness :
  DataMixin.load_json string id id sample_is_absolute sample_truediv string unit
    sample_json_load sample_requests_get sample_response_json "/sketch"
    sample_fs (Str string "https://example.org/missing.json") tt
  = Raise (RuntimeError "Unable to download JSON URL: Not Found").
Proof.
  destruct (load_json_url id id sample_is_absolute sample_truediv
              sample_json_load sample_requests_get sample_response_json
              "/sketch" sample_fs "https://example.org/missing.json" tt
              (Response 404 "Not Found" "")) as (_ & H & _).
  - reflexivity.
  - reflexivity.
  - apply H. simpl. discriminate.
Defined.

Lemma load_json_file_witness :
  let load :=
    DataMixin.load_json string id id sample_is_absolute sample_truediv string
      unit sample_json_load sample_requests_get sample_response_json "/sketch"
      sample_fs in
  load (Str string "points.json") tt = Ok "[1, 2]"
  ∧ load (Str string "nothing.json") tt
    = Raise (RuntimeError "Unable to find JSON file nothing.json").
Proof.
  intros load. split.
  - destruct (load_json_file id id sample_is_absolute sample_truediv
                sample_json_load sample_requests_get sample_response_json
                "/sketch" sample_fs (Str string "points.json") tt eq_refl)
      as (H & _).
    apply H; reflexivity.
  - destruct (load_json_file id id sample_is_absolute sample_truediv
                sample_json_load sample_requests_get sample_response_json
                "/sketch" sample_fs (Str string "nothing.json") tt eq_refl)
      as (_ & _ & H & _).
    apply H; reflexivity.
Defined.

End DataClaims.

(** ** Further properties of the data mixin *)

Module DataMixinProps.
Import DataMixin.

Section Collaborators.
Context {path json kwargs : Type} `{EqDecision path}.
Variable Path : string → path.
Variable str : path → string.
Variable is_absolute : path → bool.
Variable truediv : path → path → path.
Variable json_load : string → kwargs → result json.
Variable requests_get : string → result response.
Variable response_json : response → result json.
Variable sketch_path : path.
Variable open_w : filesystem path → path → result unit.
Variable json_dump : json → kwargs → string * option exn.

Local Abbreviation load_json :=
  (load_json path Path str is_absolute truediv json kwargs json_load
             requests_get response_json sketch_path).
Local Abbreviation save_json :=
  (save_json path Path is_absolute truediv json kwargs sketch_path
             open_w json_dump).

(** Where [save_json] writes. *)
Lemma save_json_target (fs : filesystem path) v (filename : source path) kw :
  let given := to_path path Path filename in
  let target := if is_absolute given then given else truediv sketch_path given in
  save_json fs v filename kw
  = match open_w fs target with
    | Raise e => (Raise e, fs)
    | Ok _ => (match (json_dump v kw).2 with None => Ok tt | Some e => Raise e end,
               write_text path fs target (json_dump v kw).1)
    end.
Proof.
  intros given target. unfold DataMixin.save_json. fold given.
  subst target. destruct (is_absolute given); simpl;
    destruct (open_w _ _); try done; by destruct (json_dump v kw).
Qed.

(** X8.  What [save_json] has written under a name, [load_json] reads
    back under that name, provided the text that [json.dump] produces parses
    back to the value, the name is not taken for a URL, and no file of that
    name in the [data] directory of the sketch takes precedence. *)
Theorem save_then_load (fs fs' : filesystem path) (v : json)
    (filename : source path) (kw kw' : kwargs) :
  let given := to_path path Path filename in
  let in_data := truediv (truediv sketch_path (Path "data")) given in
  let in_sketch := truediv sketch_path given in
  is_url path filename = false →
  save_json fs v filename kw = (Ok tt, fs') →
  json_load (json_dump v kw).1 kw' = Ok v →
  is_absolute given = true ∨ in_data = in_sketch
    ∨ path_exists path fs in_data = false →
  load_json fs' filename kw' = Ok v.
Proof.
  intros given in_data in_sketch Hurl Hsave Hparse Hfree.
  rewrite save_json_target in Hsave. fold given in Hsave.
  destruct (open_w fs _) as [[]|e]; [|done].
  injection Hsave as Hok <-.
  unfold DataMixin.load_json. rewrite Hurl. fold given in_data in_sketch.
  destruct (is_absolute given) eqn:Habs; simpl.
  - rewrite ?decide_True by done. simpl. by rewrite ?decide_True.
  - fold in_sketch. destruct (decide (in_data = in_sketch)) as [Heq|Hne].
    + rewrite Heq. simpl. rewrite ?decide_True by done. simpl.
      by rewrite ?decide_True.
    + destruct Hfree as [?|[?|Hfree]]; [done..|].
      rewrite Hfree. simpl.
      rewrite ?decide_True by done. simpl. by rewrite ?decide_True.
Qed.

(** X9.  A file of the same name in the [data] directory of the sketch
    hides what [save_json] writes: for a relative name, [load_json] returns
    after the save exactly what it returned before it. *)
Theorem data_copy_hides_saved_file (fs : filesystem path) (v : json)
    (filename : source path) (kw kw' : kwargs) :
  let given := to_path path Path filename in
  let in_data := truediv (truediv sketch_path (Path "data")) given in
  let in_sketch := truediv sketch_path given in
  is_absolute given = false →
  in_data ≠ in_sketch →
  path_exists path fs in_data = true →
  load_json (save_json fs v filename kw).2 filename kw'
  = load_json fs filename kw'.
Proof.
  intros given in_data in_sketch Habs Hne Hdata.
  rewrite save_json_target. fold given. rewrite Habs. fold in_sketch.
  destruct (open_w fs in_sketch) as [[]|e]; [|done]. simpl.
  unfold DataMixin.load_json. destruct (is_url path filename); [done|].
  fold given in_data in_sketch. rewrite Habs. simpl.
  rewrite !(decide_False (P := in_data = in_sketch)) by done.
  rewrite Hdata. simpl.
  by rewrite ?(decide_False (P := in_data = in_sketch)) by done.
Qed.

End Collaborators.

Lemma save_then_load_witness :
  let save := save_json string id sample_is_absolute sample_truediv string unit
                "/sketch" sample_open_w sample_json_dump in
  let load := load_json string id id sample_is_absolute sample_truediv string
                unit sample_json_load sample_requests_get sample_response_json
                "/sketch" in
  load (save sample_fs "{}" (Str string "notes.json") tt).2
       (Str string "notes.json") tt
  = Ok "{}".
Proof.
  intros save load.
  apply (save_then_load id id sample_is_absolute sample_truediv
           sample_json_load sample_requests_get sample_response_json
           "/sketch" sample_open_w sample_json_dump sample_fs _ "{}"
           (Str string "notes.json") tt tt).
  - reflexivity.
  - reflexivity.
  - reflexivity.
  - right. right. reflexivity.
Defined.

Lemma data_copy_hides_saved_file_witness :
  let save := save_json string id sample_is_absolute sample_truediv string unit
                "/sketch" sample_open_w sample_json_dump in
  let load := load_json string id id sample_is_absolute sample_truediv string
                unit sample_json_load sample_requests_get sample_response_json
                "/sketch" in
  load (save sample_fs "{}" (Str string "points.json") tt).2
       (Str string "points.json") tt
  = Ok "[1, 2]".
Proof.
  intros save load. subst save load.
  rewrite (data_copy_hides_saved_file id id sample_is_absolute sample_truediv
             sample_json_load sample_requests_get sample_response_json
             "/sketch" sample_open_w sample_json_dump sample_fs "{}"
             (Str string "points.json") tt tt).
  - reflexivity.
  - reflexivity.
  - discriminate.
  - reflexivity.
Defined.

End DataMixinProps.

(** ** Claims about the sketch capture *)

Module DrawingClaims.
Import Drawing.

Section Collaborators.
Variable exec_code : string → world → result unit * world.
Variable mkdtemp : gmap string node → string.
Variable decode : string → result string.
Variable textwrap_indent : string → string → string.
Variable fix_triple_quote_str : string → string.
Variable Path : string → string.
Variable parent : string → string.
Variable mkdir_parents
  : string → gmap string node → result unit * gmap string node.
Variable open_refused : gmap string node → string → option exn.
Variable re_match : string → string → bool.
Variable pil_open_rgb : string → result string.
Variable pil_save
  : string → string → gmap string node → result unit * gmap string node.

Local Abbreviation _run_sketch :=
  (_run_sketch exec_code mkdtemp decode textwrap_indent fix_triple_quote_str).

(** When a sketch is running, [_run_sketch] prints its message and returns
    [None]; nothing else in the world changes. *)
Lemma run_sketch_running renderer code width height safe_exec (w : world) :
  is_running w = true →
  _run_sketch renderer code width height safe_exec w
  = (Ok None, set_stdout (stdout w ++ [already_running]) w).
Proof.
  intros Hrun. unfold Drawing._run_sketch.
  repeat case_decide; unfold bind, get; simpl; by rewrite Hrun.
Qed.

Lemma rmtree_inside dir (fs : gmap string node) name :
  inside dir name → rmtree dir fs !! name = None.
Proof.
  intros Hin. unfold rmtree. apply map_lookup_filter_None. right.
  intros x _ Hout. by apply Hout.
Qed.

(** Leaving the block removes the directory on every path. *)
Lemma with_TemporaryDirectory_removed {A} (body : string → M world A)
    (w : world) name :
  inside (mkdtemp (files w)) name →
  files (with_TemporaryDirectory mkdtemp body w).2 !! name = None.
Proof.
  intros Hin. unfold with_TemporaryDirectory.
  destruct (body _ _) as [r w']. simpl. by apply rmtree_inside.
Qed.

Lemma del_user_ns_files key (w : world) :
  files (del_user_ns key w).2 = files w.
Proof. unfold del_user_ns. by destruct (user_ns w !! key). Qed.

Lemma del_user_ns_absent key (w : world) :
  user_ns (del_user_ns key w).2 !! key = None.
Proof.
  unfold del_user_ns. destruct (user_ns w !! key) eqn:E; simpl; [|done].
  apply lookup_delete_eq.
Qed.

(** The shape of [_run_sketch] when no sketch is running: the namespace
    binding (unsafe mode only), the temporary-directory block, and after the
    block the removal of the binding (unsafe mode only). *)
Lemma run_sketch_shape renderer code width height safe_exec (w : world) :
  is_running w = false →
  ∃ body : string → M world (option string),
    _run_sketch renderer code width height safe_exec w
    = bind (with_TemporaryDirectory mkdtemp body)
        (λ result,
           bind (if negb safe_exec then del_user_ns "_py5_user_ns" else ret tt)
                (λ _, ret result))
        (if safe_exec then w
         else set_user_ns (<["_py5_user_ns" := Namespace]> (user_ns w)) w).
Proof.
  intros Hrun. unfold Drawing._run_sketch.
  repeat case_decide; unfold bind at 1, get; simpl; rewrite Hrun;
    destruct safe_exec; by eexists.
Qed.

(** If the block raises, [_run_sketch] raises the same exception and the
    world is as the block left it. *)
Lemma bind_raise {S A B} (m : M S A) (k : A → M S B) (s s' : S) e :
  m s = (Raise e, s') → bind m k s = (Raise e, s').
Proof. intros Hm. unfold bind. by rewrite Hm. Qed.

Lemma bind_ok {S A B} (m : M S A) (k : A → M S B) (s s' : S) a :
  m s = (Ok a, s') → bind m k s = k a s'.
Proof. intros Hm. unfold bind. by rewrite Hm. Qed.

(** C6.  When no sketch is running, so that [_run_sketch] goes on to
    create its temporary directory, neither that directory nor anything
    below it exists when [_run_sketch] is left, whatever the script does and
    whether the call returns or raises. *)
Theorem temporary_directory_removed renderer code width height safe_exec
    (w : world) (name : string) :
  is_running w = false →
  inside (mkdtemp (files w)) name →
  files (_run_sketch renderer code width height safe_exec w).2 !! name = None.
Proof.
  intros Hrun Hin.
  destruct (run_sketch_shape renderer code width height safe_exec w Hrun)
    as [body ->].
  set (w0 := if safe_exec then w else _).
  assert (files w0 = files w) as Hw0 by (subst w0; by destruct safe_exec).
  pose proof (with_TemporaryDirectory_removed body w0 name) as Hgone.
  rewrite Hw0 in Hgone. specialize (Hgone Hin).
  destruct (with_TemporaryDirectory mkdtemp body w0) as [[result|e] w1] eqn:Hblock;
    simpl in Hgone.
  - rewrite (bind_ok _ _ _ _ _ Hblock).
    destruct safe_exec; simpl; [done|].
    unfold bind, ret.
    pose proof (del_user_ns_files "_py5_user_ns" w1) as Hdel.
    destruct (del_user_ns "_py5_user_ns" w1) as [[[]|e] w2]; simpl in *;
      by rewrite Hdel.
  - by rewrite (bind_raise _ _ _ _ _ Hblock).
Qed.

(** In unsafe mode the binding is gone whenever [_run_sketch] returns. *)
Lemma unsafe_binding_removed_on_return renderer code width height
    (w w' : world) result :
  is_running w = false →
  _run_sketch renderer code width height false w = (Ok result, w') →
  user_ns w' !! "_py5_user_ns" = None.
Proof.
  intros Hrun.
  destruct (run_sketch_shape renderer code width height false w Hrun)
    as [body ->].
  unfold bind at 1. destruct (with_TemporaryDirectory _ _ _) as [[r|e] w1];
    [|done].
  simpl. unfold bind, ret.
  pose proof (del_user_ns_absent "_py5_user_ns" w1) as Hdel.
  destruct (del_user_ns "_py5_user_ns" w1) as [[[]|e] w2]; simpl in *; [|done].
  by intros [= _ <-].
Qed.

(** In unsafe mode, when the block raises, the exception leaves
    [_run_sketch] with the namespace as the block left it. *)
Lemma unsafe_binding_kept_on_raise renderer code width height (w : world) :
  is_running w = false →
  ∃ body : string → M world (option string),
    ∀ e w1,
      with_TemporaryDirectory mkdtemp body
        (set_user_ns (<["_py5_user_ns" := Namespace]> (user_ns w)) w)
      = (Raise e, w1) →
      _run_sketch renderer code width height false w = (Raise e, w1).
Proof.
  intros Hrun.
  destruct (run_sketch_shape renderer code width height false w Hrun)
    as [body ->].
  exists body. intros e w1 Hblock. by rewrite (bind_raise _ _ _ _ _ Hblock).
Qed.

Local Abbreviation py5drawpdf :=
  (py5drawpdf exec_code mkdtemp decode textwrap_indent fix_triple_quote_str
              Path parent mkdir_parents open_refused).
Local Abbreviation py5drawdxf :=
  (py5drawdxf exec_code mkdtemp decode textwrap_indent fix_triple_quote_str
              Path parent mkdir_parents open_refused).
Local Abbreviation py5drawsvg :=
  (py5drawsvg exec_code mkdtemp decode textwrap_indent fix_triple_quote_str
              Path parent mkdir_parents open_refused).
Local Abbreviation py5draw :=
  (py5draw exec_code mkdtemp decode textwrap_indent fix_triple_quote_str
           Path parent mkdir_parents re_match pil_open_rgb pil_save).

(** C9.  When a sketch is marked running, [_run_sketch] returns [None]
    without raising, for every renderer, cell text, size and mode; the only
    change to the world is the line it prints: no script is executed, no
    file is written, the namespace is as before.  The magic that called it
    then does nothing more: no file, no message of its own, nothing
    displayed, nothing bound.  (The generic magic calls [_run_sketch] only
    for the renderers it knows.) *)
Theorem already_running_aborts renderer code width height safe_exec
    (a : args) (cell : string) (w : world) :
  is_running w = true →
  let w' := set_stdout (stdout w ++ [already_running]) w in
  _run_sketch renderer code width height safe_exec w = (Ok None, w')
  ∧ py5drawpdf a cell w = (Ok tt, w')
  ∧ py5drawdxf a cell w = (Ok tt, w')
  ∧ py5drawsvg a cell w = (Ok tt, w')
  ∧ (Drawing.renderer a ∈ known_renderers → py5draw a cell w = (Ok tt, w')).
Proof.
  intros Hrun w'. split_and!.
  - by apply run_sketch_running.
  - unfold Drawing.py5drawpdf.
    by rewrite (bind_ok _ _ _ _ _ (run_sketch_running _ _ _ _ _ _ Hrun)).
  - unfold Drawing.py5drawdxf.
    by rewrite (bind_ok _ _ _ _ _ (run_sketch_running _ _ _ _ _ _ Hrun)).
  - unfold Drawing.py5drawsvg.
    by rewrite (bind_ok _ _ _ _ _ (run_sketch_running _ _ _ _ _ _ Hrun)).
  - intros Hknown. unfold Drawing.py5draw.
    assert (Drawing.renderer a ≠ "SVG" ∧ Drawing.renderer a ≠ "PDF") as [? ?].
    { unfold known_renderers in Hknown.
      repeat (apply elem_of_cons in Hknown as [->|Hknown]; [done|]).
      by apply elem_of_nil in Hknown. }
    rewrite !decide_False by (done || by intros ?).
    by rewrite (bind_ok _ _ _ _ _ (run_sketch_running _ _ _ _ _ _ Hrun)).
Qed.

(** C10.  When [_run_sketch] stops because a sketch is running, the
    notebook namespace is exactly what it was, in safe and in unsafe mode:
    the check comes before the binding of [_py5_user_ns], so no key has been
    added or removed. *)
Theorem abort_leaves_namespace renderer code width height safe_exec
    (w : world) :
  is_running w = true →
  user_ns (_run_sketch renderer code width height safe_exec w).2 = user_ns w.
Proof.
  intros Hrun. by rewrite (run_sketch_running _ _ _ _ _ _ Hrun).
Qed.

End Collaborators.

(** C5.  In unsafe mode the binding [_py5_user_ns] is not removed when the
    script raises: the [del] statement stands after the block and is
    skipped.  Here the cell text ends in a double quote, which makes the
    generated script ill-formed, so that compiling it raises
    [SyntaxError]. *)
Theorem unsafe_binding_survives_failed_script :
  let w := sample_world false in
  let cell := "title = " +:+ dq +:+ "sketch" +:+ dq in
  let '(r, w') :=
    Drawing._run_sketch refusing_exec sample_mkdtemp Ok sample_indent id
      "P2D" cell 100 100 false w in
  r = Raise SyntaxError
  ∧ user_ns w !! "_py5_user_ns" = None
  ∧ user_ns w' !! "_py5_user_ns" = Some Namespace.
Proof. vm_compute. done. Qed.

Lemma temporary_directory_removed_witness :
  let run := Drawing._run_sketch refusing_exec sample_mkdtemp Ok sample_indent id
               "SVG" "py5.rect(1, 2, 3, 4)" 100 100 true in
  files (run (sample_world false)).2 !! "/tmp/tmp0" = None
  ∧ files (run (sample_world false)).2 !! "/tmp/tmp0/py5_code.py" = None.
Proof.
  intros run. split.
  - apply (temporary_directory_removed refusing_exec sample_mkdtemp Ok
             sample_indent id "SVG" "py5.rect(1, 2, 3, 4)" 100 100 true
             (sample_world false) "/tmp/tmp0").
    + reflexivity.
    + left. reflexivity.
  - apply (temporary_directory_removed refusing_exec sample_mkdtemp Ok
             sample_indent id "SVG" "py5.rect(1, 2, 3, 4)" 100 100 true
             (sample_world false) "/tmp/tmp0/py5_code.py").
    + reflexivity.
    + right. reflexivity.
Defined.

Lemma already_running_aborts_witness :
  let w := sample_world true in
  Drawing._run_sketch idle_exec sample_mkdtemp Ok sample_indent id
    "PDF" "py5.rect(1, 2, 3, 4)" 100 100 false w
  = (Ok None, set_stdout [already_running] w).
Proof.
  intros w.
  destruct (already_running_aborts idle_exec sample_mkdtemp Ok sample_indent id
              id sample_parent sample_mkdir sample_open_refused
              (λ _ _, true) Ok sample_pil_save
              "PDF" "py5.rect(1, 2, 3, 4)" 100 100 false
              (Args 100 100 (Some "out.pdf") "P2D" None true)
              "py5.rect(1, 2, 3, 4)" w eq_refl) as [H _].
  exact H.
Defined.

Lemma abort_leaves_namespace_witness :
  let w := sample_world true in
  user_ns (Drawing._run_sketch idle_exec sample_mkdtemp Ok sample_indent id
             "P2D" "py5.rect(1, 2, 3, 4)" 100 100 false w).2
  = {[ "answer" := Other 42 ]}.
Proof.
  intros w.
  apply (abort_leaves_namespace idle_exec sample_mkdtemp Ok sample_indent id
           "P2D" "py5.rect(1, 2, 3, 4)" 100 100 false w eq_refl).
Defined.

End DrawingClaims.

(** ** Further properties of the sketch capture *)

Module DrawingProps.
Import Drawing.

(** *** The escaping of the cell text *)

Lemma escape_head_quote (code t : string) :
  escape_triple_quotes code = String "034" t →
  ∃ code', code = String "034" code' ∧ t = escape_triple_quotes code'.
Proof.
  destruct code as [|a rest]; simpl; [done|].
  destruct rest as [|b [|c rest']]; simpl.
  - intros [= -> <-]. by exists EmptyString.
  - intros [= -> <-]. by eexists.
  - case_decide.
    + intros [=].
    + intros [= -> <-]. by eexists.
Qed.

(** X19.  The escaped cell text contains no bare triple quote: wherever
    three double quotes stand in a row in the result of the replacement, a
    backslash stands immediately before them. *)
Theorem escaped_triple_quotes_follow_backslash (code pre post : string) :
  escape_triple_quotes code = pre +:+ triple_quote +:+ post →
  ∃ pre', pre = pre' +:+ bs.
Proof.
  remember (String.length code) as n eqn:Hn.
  revert code pre post Hn.
  induction n as [n IH] using lt_wf_ind. intros code pre post -> Hocc.
  destruct code as [|a rest]; simpl in Hocc.
  { by destruct pre. }
  assert (∀ pre0 c,
    escape_triple_quotes rest = pre0 +:+ triple_quote +:+ post →
    ∃ pre', String c pre0 = pre' +:+ bs) as Hrest.
  { intros pre0 c Hr.
    destruct (IH (String.length rest)) with (code := rest) (pre := pre0)
      (post := post) as [pre' ->]; [simpl; lia|done..|].
    by exists (String c pre'). }
  assert (pre = EmptyString →
    escape_triple_quotes (String a rest) = String a (escape_triple_quotes rest) →
    escape_triple_quotes (String a rest) ≠ pre +:+ triple_quote +:+ post)
    as Hhead.
  { intros -> Hcopy Hocc'. rewrite Hcopy in Hocc'. simpl in Hocc'.
    injection Hocc' as -> Hocc'.
    apply escape_head_quote in Hocc' as (r1 & -> & Hocc').
    symmetry in Hocc'. apply escape_head_quote in Hocc' as (r2 & -> & _).
    simpl in Hcopy. discriminate Hcopy. }
  destruct rest as [|b [|c rest']].
  - destruct pre as [|c0 pre0]; [by destruct (Hhead eq_refl eq_refl)|].
    simpl in Hocc. injection Hocc as <- Hocc. by apply Hrest.
  - destruct pre as [|c0 pre0]; [by destruct (Hhead eq_refl eq_refl)|].
    simpl in Hocc. injection Hocc as <- Hocc. by apply Hrest.
  - destruct (decide (a = "034"%char ∧ b = "034"%char ∧ c = "034"%char))
      as [(-> & -> & ->)|Hq].
    + clear Hhead Hrest.
      destruct pre as [|c0 [|c1 [|c2 [|c3 [|c4 [|c5 pre6]]]]]];
        simpl in Hocc; try discriminate Hocc.
      * injection Hocc as <- <- <- <- <- _.
        by exists (String "092" (String "034" (String "092" (String "034" "")))).
      * injection Hocc as <- <- <- <- <- <- Hocc.
        destruct (IH (String.length rest')) with (code := rest') (pre := pre6)
          (post := post) as [pre' ->]; [simpl; lia|done..|].
        by exists (String "092" (String "034" (String "092" (String "034"
                     (String "092" (String "034" pre')))))).
    + assert (escape_triple_quotes (String a (String b (String c rest')))
              = String a (escape_triple_quotes (String b (String c rest'))))
        as Hcopy.
      { simpl. by rewrite decide_False. }
      destruct pre as [|c0 pre0].
      { exfalso. apply (Hhead eq_refl Hcopy). by rewrite Hcopy. }
      simpl in Hocc. injection Hocc as <- Hocc. by apply Hrest.
Qed.

(** X20.  Cell text in which no three double quotes stand in a row goes
    into the generated script unchanged. *)
Theorem text_without_triple_quotes_unchanged (code : string) :
  (∀ pre post, code ≠ pre +:+ triple_quote +:+ post) →
  escape_triple_quotes code = code.
Proof.
  induction code as [|a rest IH]; intros Hno; [done|].
  assert (escape_triple_quotes rest = rest) as Hrest.
  { apply IH. intros pre post ->. by apply (Hno (String a pre) post). }
  simpl. destruct rest as [|b [|c rest']]; [done|by rewrite Hrest|].
  case_decide as Hq; [|by rewrite Hrest].
  destruct Hq as (-> & -> & ->). by destruct (Hno EmptyString rest').
Qed.

Lemma text_without_triple_quotes_unchanged_witness :
  escape_triple_quotes "r" = "r".
Proof.
  apply text_without_triple_quotes_unchanged.
  intros [|c0 pre] post H; simpl in H; [discriminate H|].
  injection H as _ H. destruct pre; discriminate H.
Defined.

Lemma escaped_triple_quotes_follow_backslash_witness :
  let five := dq +:+ dq +:+ dq +:+ dq +:+ dq in
  escape_triple_quotes five = bs +:+ dq +:+ bs +:+ dq +:+ bs +:+ dq +:+ dq +:+ dq
  ∧ ∃ pre', bs +:+ dq +:+ bs +:+ dq +:+ bs = pre' +:+ bs.
Proof.
  intros five. split; [reflexivity|].
  apply (escaped_triple_quotes_follow_backslash five
           (bs +:+ dq +:+ bs +:+ dq +:+ bs) EmptyString).
  reflexivity.
Defined.

Section Collaborators.
Variable exec_code : string → world → result unit * world.
Variable mkdtemp : gmap string node → string.
Variable decode : string → result string.
Variable textwrap_indent : string → string → string.
Variable fix_triple_quote_str : string → string.
Variable Path : string → string.
Variable parent : string → string.
Variable mkdir_parents
  : string → gmap string node → result unit * gmap string node.
Variable open_refused : gmap string node → string → option exn.
Variable re_match : string → string → bool.
Variable pil_open_rgb : string → result string.
Variable pil_save
  : string → string → gmap string node → result unit * gmap string node.

Local Abbreviation _run_sketch :=
  (_run_sketch exec_code mkdtemp decode textwrap_indent fix_triple_quote_str).
Local Abbreviation staged :=
  (staged mkdtemp textwrap_indent fix_triple_quote_str).
Local Abbreviation read_back := (read_back decode).

(** Run the monadic plumbing of a goal as far as it goes. *)
Local Ltac run_monad :=
  repeat (progress (simpl;
    unfold bind, ret, modify, with_TemporaryDirectory, write_file, exec, get,
      read_file, lift, raise, del_user_ns, try, print, display)).

(** [_run_sketch] when no sketch is running, in terms of what the
    interpreter does with the script. *)
Lemma run_sketch_exec renderer code width height safe_exec (w : world) :
  is_running w = false →
  let tempdir := mkdtemp (files w) in
  let ran := exec_code (framework tempdir)
               (staged renderer code width height safe_exec w) in
  let w3 := set_files (rmtree tempdir (files ran.2))
              (set_executed (executed w ++ [framework tempdir]) ran.2) in
  _run_sketch renderer code width height safe_exec w
  = match ran.1 with
    | Raise e => (Raise e, w3)
    | Ok _ =>
        match read_back renderer tempdir ran.2 with
        | Raise e => (Raise e, w3)
        | Ok result =>
            if safe_exec then (Ok result, w3)
            else match user_ns w3 !! "_py5_user_ns" with
                 | Some _ => (Ok result,
                              set_user_ns (delete "_py5_user_ns" (user_ns w3)) w3)
                 | None => (Raise (KeyError "_py5_user_ns"), w3)
                 end
        end
    end.
Proof.
  intros Hrun tempdir ran w3. subst w3 ran.
  unfold Drawing._run_sketch, Drawing.staged, Drawing.read_back, framework,
    temp_out, temp_py, template_of, suffix_of, mode_of, prepared.
  repeat case_decide; unfold bind at 1, get; rewrite Hrun;
    destruct safe_exec; run_monad; fold tempdir;
    destruct (exec_code _ _) as [[[]|e] w2]; run_monad; try done;
    destruct (files w2 !! _) as [[data|]|] eqn:Hout; run_monad;
    rewrite ?Hout; run_monad; try done;
    try (destruct (decode data); run_monad; try done);
    by destruct (user_ns w2 !! "_py5_user_ns").
Qed.



(** X11.  In unsafe mode the name [_py5_user_ns] is taken over: the
    script finds the namespace itself bound to it, whatever the notebook had
    bound to that name, and when [_run_sketch] returns the name is unbound;
    a variable of that name is lost.  Every other name is bound as the
    script left it. *)
Theorem unsafe_mode_takes_over_name renderer code width height (w w' : world)
    (result : option string) :
  is_running w = false →
  _run_sketch renderer code width height false w = (Ok result, w') →
  let ran := exec_code (framework (mkdtemp (files w)))
               (staged renderer code width height false w) in
  user_ns (staged renderer code width height false w) !! "_py5_user_ns"
    = Some Namespace
  ∧ user_ns w' !! "_py5_user_ns" = None
  ∧ ∀ key, key ≠ "_py5_user_ns" → user_ns w' !! key = user_ns ran.2 !! key.
Proof.
  intros Hrun Hres ran.
  rewrite (run_sketch_exec _ _ _ _ _ _ Hrun) in Hres. fold ran in Hres.
  split; [by apply lookup_insert_eq|].
  destruct ran as [[[]|e] w2]; simpl in *; [|done].
  destruct (read_back _ _ _) as [out|e]; [|done].
  destruct (user_ns w2 !! "_py5_user_ns") eqn:E; [|done].
  injection Hres as _ <-. simpl. split; [by apply lookup_delete_eq|].
  intros key Hkey. by apply lookup_delete_ne.
Qed.

(** X12.  In unsafe mode, a script that returns but has itself removed
    the binding [_py5_user_ns] makes [_run_sketch] raise [KeyError]: the
    output that was read back is lost. *)
Theorem unsafe_mode_needs_its_binding renderer code width height (w : world)
    (result : option string) :
  is_running w = false →
  let tempdir := mkdtemp (files w) in
  let ran := exec_code (framework tempdir)
               (staged renderer code width height false w) in
  ran.1 = Ok tt →
  user_ns ran.2 !! "_py5_user_ns" = None →
  read_back renderer tempdir ran.2 = Ok result →
  (_run_sketch renderer code width height false w).1
  = Raise (KeyError "_py5_user_ns").
Proof.
  intros Hrun tempdir ran Hok Hgone Hread.
  rewrite (run_sketch_exec _ _ _ _ _ _ Hrun). fold tempdir ran.
  rewrite Hok, Hread. simpl. by rewrite Hgone.
Qed.

(** X13.  In safe mode [_run_sketch] does not touch the notebook
    namespace: the script starts with the namespace as it was given, and
    the namespace at the end is the one the script left. *)
Theorem safe_mode_keeps_namespace renderer code width height (w : world) :
  is_running w = false →
  let ran := exec_code (framework (mkdtemp (files w)))
               (staged renderer code width height true w) in
  user_ns (staged renderer code width height true w) = user_ns w
  ∧ user_ns (_run_sketch renderer code width height true w).2 = user_ns ran.2.
Proof.
  intros Hrun ran. split; [done|].
  rewrite (run_sketch_exec _ _ _ _ _ _ Hrun). fold ran.
  destruct ran as [[[]|e] w2]; simpl; [|done].
  by destruct (read_back _ _ _).
Qed.

Local Abbreviation py5drawpdf :=
  (py5drawpdf exec_code mkdtemp decode textwrap_indent fix_triple_quote_str
              Path parent mkdir_parents open_refused).
Local Abbreviation py5draw :=
  (py5draw exec_code mkdtemp decode textwrap_indent fix_triple_quote_str
           Path parent mkdir_parents re_match pil_open_rgb pil_save).

Local Abbreviation left_behind :=
  (left_behind exec_code mkdtemp textwrap_indent fix_triple_quote_str).
Local Abbreviation _filename_check := (_filename_check Path parent mkdir_parents).
Local Abbreviation with_parent := (with_parent parent mkdir_parents).

Lemma run_sketch_safe renderer code width height (w : world) result :
  is_running w = false →
  let tempdir := mkdtemp (files w) in
  let ran := exec_code (framework tempdir)
               (staged renderer code width height true w) in
  ran.1 = Ok tt →
  read_back renderer tempdir ran.2 = Ok result →
  _run_sketch renderer code width height true w
  = (Ok result, left_behind renderer code width height w).
Proof.
  intros Hrun tempdir ran Hok Hread.
  rewrite (run_sketch_exec _ _ _ _ _ _ Hrun). fold tempdir ran.
  by rewrite Hok, Hread.
Qed.

Lemma known_renderer_binary r : r ∈ known_renderers → mode_of r = Binary.
Proof.
  unfold known_renderers. intros Hin.
  repeat (apply elem_of_cons in Hin as [->|Hin]; [done|]).
  by apply elem_of_nil in Hin.
Qed.

Lemma known_renderer_passes r :
  r ∈ known_renderers → r ≠ "SVG" ∧ r ≠ "PDF".
Proof.
  unfold known_renderers. intros Hin.
  repeat (apply elem_of_cons in Hin as [->|Hin]; [done|]).
  by apply elem_of_nil in Hin.
Qed.

Lemma truthy_Some s : s ≠ EmptyString → truthy (Some s) = true.
Proof. intros Hs. unfold truthy. by rewrite bool_decide_eq_false_2. Qed.

(** [_filename_check] on a name that is given: the path is the normalised
    one, and the files are what [with_parent] says. *)
Lemma filename_check_given text (w : world) r fs :
  with_parent (Path text) (files w) = (r, fs) →
  _filename_check (Some text) w
  = (match r with Ok _ => Ok (Path text) | Raise e => Raise e end,
     set_files fs w).
Proof.
  unfold Drawing._filename_check, Drawing.with_parent, mkdir, bind, get, ret.
  case_bool_decide.
  - intros [= <- <-]. by destruct w.
  - intros ->. by destruct r as [[]|e].
Qed.

(** X14.  The generic magic refuses every renderer outside its list,
    SVG and PDF among them: it prints one line and does nothing else,
    whether or not a sketch is running; no script is generated or run. *)
Theorem py5draw_refuses_other_renderers (a : args) (cell : string) (w : world) :
  Drawing.renderer a ∉ known_renderers →
  let line :=
    if decide (Drawing.renderer a = "SVG") then
      "please use %%py5drawsvg for SVG drawings."
    else if decide (Drawing.renderer a = "PDF") then
      "please use %%py5drawpdf for PDFs."
    else "unknown renderer " +:+ Drawing.renderer a in
  py5draw a cell w = (Ok tt, set_stdout (stdout w ++ [line]) w).
Proof.
  intros Hno line. subst line. unfold Drawing.py5draw.
  repeat case_decide; done.
Qed.

(** X15.  A raster capture in safe mode with a file name and a valid
    variable name, when the script returns and has saved a non-empty
    picture that PIL can open, and the directory of the named file is there
    or can be made.  The picture is saved under the normalised path.  When
    PIL saves it, the magic binds the converted picture to the variable,
    shows the captured picture and prints its two messages, the first with
    the normalised path; all of this happens in one call.  When PIL raises
    (it does for a name whose suffix it does not know), the magic raises the
    same exception at once: the variable is not bound, nothing is displayed
    and nothing is printed, although the picture had been captured. *)
Theorem raster_capture_effects (a : args) (cell name var png img : string)
    (w : world) (fs : gmap string node) :
  Drawing.renderer a ∈ known_renderers →
  unsafe a = false →
  filename a = Some name → name ≠ EmptyString →
  variable a = Some var → var ≠ EmptyString →
  is_running w = false →
  let tempdir := mkdtemp (files w) in
  let ran := exec_code (framework tempdir)
               (staged (Drawing.renderer a) cell (width a) (height a) true w) in
  ran.1 = Ok tt →
  files ran.2 !! temp_out tempdir (Drawing.renderer a) = Some (File png) →
  png ≠ EmptyString →
  pil_open_rgb png = Ok img →
  _variable_name_check re_match var = true →
  let target := Path name in
  with_parent target
    (files (left_behind (Drawing.renderer a) cell (width a) (height a) w))
  = (Ok tt, fs) →
  let saved := pil_save img target fs in
  let '(r, w') := py5draw a cell w in
  r = saved.1
  ∧ files w' = saved.2
  ∧ (saved.1 = Ok tt →
     user_ns w' !! var = Some (PilImage img)
     ∧ displayed w' = displayed ran.2 ++ [png]
     ∧ stdout w' = stdout ran.2 ++ ["PNG file written to " +:+ target;
                                    "PIL Image assigned to " +:+ var])
  ∧ (∀ e, saved.1 = Raise e →
     user_ns w' = user_ns ran.2
     ∧ displayed w' = displayed ran.2
     ∧ stdout w' = stdout ran.2).
Proof.
  intros Hknown Hsafe Hname Hname' Hvar Hvar' Hrun tempdir ran Hok Hout Hpng
    Himg Hcheck target Hdir saved.
  destruct (known_renderer_passes _ Hknown) as [Hsvg Hpdf].
  assert (read_back (Drawing.renderer a) tempdir ran.2 = Ok (Some png)) as Hread.
  { unfold Drawing.read_back. by rewrite Hout, (known_renderer_binary _ Hknown). }
  unfold Drawing.py5draw.
  rewrite !decide_False by (done || by intros ?).
  rewrite Hsafe. simpl negb.
  rewrite (DrawingClaims.bind_ok _ _ _ _ _
             (run_sketch_safe _ _ _ _ _ _ Hrun Hok Hread)).
  rewrite Hname, Hvar, (truthy_Some _ Hpng), (truthy_Some _ Hname'),
    (truthy_Some _ Hvar').
  simpl orb. cbv iota. unfold lift at 1. unfold bind at 2. unfold bind at 1.
  change (default EmptyString (Some png)) with png.
  change (default EmptyString (Some var)) with var.
  rewrite Himg, Hcheck.
  unfold bind at 2. unfold bind at 1.
  rewrite (filename_check_given _ _ _ _ Hdir).
  unfold save_image, bind at 1. simpl files. fold target. fold saved.
  destruct saved as [[[]|e] fs']; run_monad; subst ran tempdir.
  - split_and!; [done|done| |done].
    intros _. split_and!; [apply lookup_insert_eq|done|].
    by rewrite <-(assoc_L (++)).
  - split_and!; [done|done|done|]. by intros e' _.
Qed.


(** X17.  An output file that is empty counts as no output: when the
    script has saved an empty document, the PDF magic writes no file and
    prints nothing, and the world is the one [_run_sketch] left. *)
Theorem empty_output_is_silent (a : args) (cell : string) (w : world) :
  unsafe a = false →
  is_running w = false →
  let tempdir := mkdtemp (files w) in
  let ran := exec_code (framework tempdir)
               (staged "PDF" cell (width a) (height a) true w) in
  ran.1 = Ok tt →
  files ran.2 !! temp_out tempdir "PDF" = Some (File EmptyString) →
  py5drawpdf a cell w = (Ok tt, left_behind "PDF" cell (width a) (height a) w).
Proof.
  intros Hsafe Hrun tempdir ran Hok Hout.
  assert (read_back "PDF" tempdir ran.2 = Ok (Some EmptyString)) as Hread.
  { unfold Drawing.read_back. by rewrite Hout. }
  unfold Drawing.py5drawpdf. rewrite Hsafe. simpl negb.
  by rewrite (DrawingClaims.bind_ok _ _ _ _ _
                (run_sketch_safe _ _ _ _ _ _ Hrun Hok Hread)).
Qed.


End Collaborators.

Local Abbreviation run_sample exec :=
  (Drawing._run_sketch exec sample_mkdtemp Ok sample_indent id).
Local Abbreviation draw_sample exec :=
  (Drawing.py5draw exec sample_mkdtemp Ok sample_indent id id sample_parent
     sample_mkdir (λ _ var, bool_decide (var = "picture_1")) Ok
     sample_pil_save).
Local Abbreviation pdf_sample exec :=
  (Drawing.py5drawpdf exec sample_mkdtemp Ok sample_indent id id sample_parent
     sample_mkdir sample_open_refused).


Lemma unsafe_mode_takes_over_name_witness :
  let w := World false [] {[ "_py5_user_ns" := Other 7 ]} ∅ [] [] in
  user_ns (run_sample idle_exec "P2D" "py5.point(1, 1)" 10 10 false w).2
    !! "_py5_user_ns" = None.
Proof.
  intros w.
  destruct (DrawingProps.unsafe_mode_takes_over_name idle_exec sample_mkdtemp
              Ok sample_indent id "P2D" "py5.point(1, 1)" 10 10 w
              (run_sample idle_exec "P2D" "py5.point(1, 1)" 10 10 false w).2
              None) as (_ & H & _).
  - reflexivity.
  - reflexivity.
  - exact H.
Defined.

Lemma unsafe_mode_needs_its_binding_witness :
  (run_sample unbinding_exec "P2D" "del _py5_user_ns" 10 10 false
     (sample_world false)).1
  = Raise (KeyError "_py5_user_ns").
Proof.
  apply (DrawingProps.unsafe_mode_needs_its_binding unbinding_exec
           sample_mkdtemp Ok sample_indent id "P2D" "del _py5_user_ns" 10 10
           (sample_world false) None).
  - reflexivity.
  - reflexivity.
  - reflexivity.
  - reflexivity.
Defined.

Lemma safe_mode_keeps_namespace_witness :
  user_ns (run_sample refusing_exec "P2D" "py5.point(1, 1)" 10 10 true
             (sample_world false)).2
  = {[ "answer" := Other 42 ]}.
Proof.
  destruct (DrawingProps.safe_mode_keeps_namespace refusing_exec
              sample_mkdtemp Ok sample_indent id "P2D" "py5.point(1, 1)" 10 10
              (sample_world false) eq_refl) as [_ H].
  exact H.
Defined.

Lemma py5draw_refuses_other_renderers_witness :
  draw_sample drawing_exec (Args 10 10 None "SVG" None false)
    "py5.point(1, 1)" (sample_world false)
  = (Ok tt, set_stdout ["please use %%py5drawsvg for SVG drawings."]
              (sample_world false)).
Proof.
  apply (DrawingProps.py5draw_refuses_other_renderers drawing_exec
           sample_mkdtemp Ok sample_indent id id sample_parent sample_mkdir
           (λ _ var, bool_decide (var = "picture_1")) Ok sample_pil_save
           (Args 10 10 None "SVG" None false) "py5.point(1, 1)"
           (sample_world false)).
  compute_done.
Defined.

Lemma raster_capture_effects_witness :
  (let '(r, w') :=
     draw_sample drawing_exec
       (Args 10 10 (Some "out.png") "P2D" (Some "picture_1") false)
       "py5.point(1, 1)" (sample_world false) in
   r = Ok tt
   ∧ files w' !! "out.png" = Some (File "picture")
   ∧ user_ns w' !! "picture_1" = Some (PilImage "picture")
   ∧ displayed w' = ["picture"]
   ∧ stdout w' = ["PNG file written to out.png";
                  "PIL Image assigned to picture_1"])
  ∧ (let '(r, w') :=
       draw_sample drawing_exec
         (Args 10 10 (Some "picture") "P2D" (Some "picture_1") false)
         "py5.point(1, 1)" (sample_world false) in
     r = Raise ValueError
     ∧ user_ns w' = {[ "answer" := Other 42 ]}
     ∧ displayed w' = []
     ∧ stdout w' = []).
Proof.
  pose proof (λ name, DrawingProps.raster_capture_effects drawing_exec
                sample_mkdtemp Ok sample_indent id id sample_parent
                sample_mkdir (λ _ var, bool_decide (var = "picture_1")) Ok
                sample_pil_save
                (Args 10 10 (Some name) "P2D" (Some "picture_1") false)
                "py5.point(1, 1)" name "picture_1" "picture" "picture"
                (sample_world false) {[ "." := Dir ]}) as H.
  split.
  - specialize (H "out.png"). cbv zeta in H.
    destruct (draw_sample drawing_exec _ _ _) as [r w'].
    destruct H as (Hr & Hfiles & Hsaved & _); try (reflexivity || discriminate).
    + compute_done.
    + destruct (Hsaved eq_refl) as (Hvar & Hshown & Hout).
      split_and!; [exact Hr| |exact Hvar|exact Hshown|exact Hout].
      rewrite Hfiles. reflexivity.
  - specialize (H "picture"). cbv zeta in H.
    destruct (draw_sample drawing_exec _ _ _) as [r w'].
    destruct H as (Hr & _ & _ & Hraised); try (reflexivity || discriminate).
    + compute_done.
    + destruct (Hraised ValueError eq_refl) as (Hns & Hshown & Hout).
      split_and!; [exact Hr|exact Hns|exact Hshown|exact Hout].
Defined.


Lemma empty_output_is_silent_witness :
  let '(r, w') :=
    pdf_sample blank_exec (Args 10 10 (Some "out.pdf") "PDF" None false)
      "py5.point(1, 1)" (sample_world false) in
  r = Ok tt ∧ stdout w' = [] ∧ files w' !! "out.pdf" = None.
Proof.
  rewrite (DrawingProps.empty_output_is_silent blank_exec sample_mkdtemp Ok
             sample_indent id id sample_parent sample_mkdir
             sample_open_refused
             (Args 10 10 (Some "out.pdf") "PDF" None false)
             "py5.point(1, 1)" (sample_world false)).
  - split_and!; reflexivity.
  - reflexivity.
  - reflexivity.
  - reflexivity.
  - reflexivity.
Defined.


End DrawingProps.